(** * Produced-film detection: a shallow embedding of
      [execution/check_produced_film.py]

    The development follows the Python module top-down: the title
    normaliser, the match evaluator (with the part of [difflib] it calls),
    the time-boxed cache, the retrying TMDB client, the decision function
    [check_if_produced] and the command-line entry point [main].

    Conventions.
    - A Python [str] is a Rocq [string]; the text functions work on its
      list of characters.  Characters are the code points 0..255 (Latin-1),
      for which the tables of [str.lower], [str.strip] and of the regular
      expression classes [\s], [\w], [\d] are written out below.
    - A [dict] with string keys is a [gmap string _].
    - [datetime] values are integers counting microseconds; a [timedelta]
      is their difference.
    - Effects (clock, network, cache file, log, stdout) are threaded
      through an explicit [World]. *)

From Stdlib Require Import ZArith QArith Lia List Ascii String Bool.
From stdpp Require Import gmap strings pretty.

Import ListNotations.
Local Open Scope string_scope.
Local Open Scope list_scope.
Local Open Scope nat_scope.

(** ** Characters *)

Module PyChar.

Definition code (c : ascii) : N := N_of_ascii c.

Definition in_range (lo hi : N) (c : ascii) : bool :=
  (lo <=? code c)%N && (code c <=? hi)%N.

(** [str.isspace] on one character; the same set is the class [\s] of
    [re] on [str] patterns and the set removed by [str.strip()]. *)
Definition isspace (c : ascii) : bool :=
  in_range 9 13 c || in_range 28 32 c
  || (code c =? 133)%N || (code c =? 160)%N.

(** The class [\d] on [str] patterns: decimal digits. *)
Definition isdigit (c : ascii) : bool := in_range 48 57 c.

(** The class [\w] on [str] patterns: alphanumerics and underscore. *)
Definition isword (c : ascii) : bool :=
  in_range 48 57 c || in_range 65 90 c || (code c =? 95)%N
  || in_range 97 122 c
  || (code c =? 170)%N || in_range 178 179 c || (code c =? 181)%N
  || in_range 185 186 c || in_range 188 190 c
  || in_range 192 214 c || in_range 216 246 c || in_range 248 255 c.

(** [str.lower] on one character. *)
Definition lower (c : ascii) : ascii :=
  if in_range 65 90 c || in_range 192 214 c || in_range 216 222 c
  then ascii_of_N (code c + 32)
  else c.

Definition eqb (a b : ascii) : bool := Ascii.eqb a b.

End PyChar.

(** ** Python text primitives on character lists *)

Module PyStr.

Definition text := list ascii.

Definition of_string (s : string) : text := list_ascii_of_string s.
Definition to_string (t : text) : string := string_of_list_ascii t.

Fixpoint lstrip (t : text) : text :=
  match t with
  | c :: r => if PyChar.isspace c then lstrip r else t
  | [] => []
  end.

Definition rstrip (t : text) : text := rev (lstrip (rev t)).

(** [s.strip()] *)
Definition strip (t : text) : text := lstrip (rstrip t).

(** [s.lower()] *)
Definition lower (t : text) : text := map PyChar.lower t.

Fixpoint all_space (t : text) : bool :=
  match t with
  | c :: r => PyChar.isspace c && all_space r
  | [] => true
  end.

(** [t.startswith(p)], returning the remainder. *)
Fixpoint strip_prefix (p t : text) : option text :=
  match p, t with
  | [], _ => Some t
  | a :: p', b :: t' => if PyChar.eqb a b then strip_prefix p' t' else None
  | _ :: _, [] => None
  end.

Definition starts_with (p t : text) : bool :=
  match strip_prefix p t with Some _ => true | None => false end.

(** [needle in hay] *)
Fixpoint contains (needle hay : text) : bool :=
  starts_with needle hay
  || match hay with
     | [] => false
     | _ :: r => contains needle r
     end.

Fixpoint text_eqb (a b : text) : bool :=
  match a, b with
  | [], [] => true
  | x :: a', y :: b' => PyChar.eqb x y && text_eqb a' b'
  | _, _ => false
  end.

End PyStr.

(** ** The four regular-expression substitutions of [normalize_title]

    [re.sub] replaces the leftmost match, then goes on after it.  Each
    function below scans the text the same way for its own pattern. *)

Module Regex.
Import PyStr.

(** Does [\s*\(\d{4}\)\s*$] match with its start at the head of [t]?
    The greedy [\s*] runs to the first non-space character, which must
    open the parenthesis; after the closing one only spaces may remain
    before the end of the string. *)
Definition year_suffix_at (t : text) : bool :=
  match lstrip t with
  | "("%char :: d1 :: d2 :: d3 :: d4 :: ")"%char :: r =>
      PyChar.isdigit d1 && PyChar.isdigit d2 && PyChar.isdigit d3
      && PyChar.isdigit d4 && all_space r
  | _ => false
  end.

(** [re.sub(r'\s*\(\d{4}\)\s*$', '', t)]: a match always reaches the end
    of the string, so the text before the leftmost match is the result. *)
Fixpoint sub_year (t : text) : text :=
  if year_suffix_at t then []
  else match t with
       | [] => []
       | c :: r => c :: sub_year r
       end.

(** [re.sub(r"[^\w\s]", '', t)] *)
Definition sub_punct (t : text) : text :=
  List.filter (fun c => PyChar.isword c || PyChar.isspace c) t.

(** One alternative of [^(the|a|an)\s+]: the word, then at least one
    space; the greedy [\s+] takes the whole run. *)
Definition article_at (word : string) (t : text) : option text :=
  match strip_prefix (of_string word) t with
  | Some (c :: r) => if PyChar.isspace c then Some (lstrip r) else None
  | _ => None
  end.

(** [re.sub(r'^(the|a|an)\s+', '', t)]: the alternatives are tried in
    order at position 0, the only place where [^] matches. *)
Definition sub_article (t : text) : text :=
  match article_at "the" t with
  | Some r => r
  | None =>
      match article_at "a" t with
      | Some r => r
      | None =>
          match article_at "an" t with
          | Some r => r
          | None => t
          end
      end
  end.

(** [re.sub(r'\s+', ' ', t)]: [in_run] tells that the previous character
    belonged to the run of spaces being replaced. *)
Fixpoint sub_spaces_from (in_run : bool) (t : text) : text :=
  match t with
  | [] => []
  | c :: r =>
      if PyChar.isspace c
      then (if in_run then sub_spaces_from true r
            else " "%char :: sub_spaces_from true r)
      else c :: sub_spaces_from false r
  end.

Definition sub_spaces (t : text) : text := sub_spaces_from false t.

End Regex.

(** ** TitleNormalizer *)

Definition normalize_text (title : PyStr.text) : PyStr.text :=
  match title with
  | [] => []                                           (* if not title *)
  | _ =>
      let normalized := PyStr.strip (PyStr.lower title) in
      let normalized := Regex.sub_year normalized in
      let normalized := Regex.sub_punct normalized in
      let normalized := Regex.sub_article normalized in
      PyStr.strip (Regex.sub_spaces normalized)
  end.

Definition normalize_title (title : string) : string :=
  PyStr.to_string (normalize_text (PyStr.of_string title)).


(** ** [difflib.SequenceMatcher(None, a, b).ratio()]

    The standard-library class is used with no junk predicate and with its
    default [autojunk=True].  Positions are indices from 0; a block
    [(i, j, k)] says that [a[i:i+k] == b[j:j+k]]. *)

Module Difflib.
Import PyStr.

Definition block : Type := nat * nat * nat.
Definition range4 : Type := nat * nat * nat * nat.

Definition block_size (m : block) : nat := snd m.

Section Matcher.
Variables a b : text.

(** [__chain_b]: the positions of each character in [b]. *)
Fixpoint indices_from (j : nat) (t : text) (c : ascii) : list nat :=
  match t with
  | [] => []
  | x :: r =>
      if PyChar.eqb x c then j :: indices_from (S j) r c
      else indices_from (S j) r c
  end.

(** With [autojunk], when [len(b) >= 200] a character occurring more
    than [len(b) // 100 + 1] times is popular and leaves [b2j]. *)
Definition popular (c : ascii) : bool :=
  (200 <=? length b) && (length b / 100 + 1 <? length (indices_from 0 b c)).

(** [b2j.get(c, nothing)] *)
Definition b2j_get (c : ascii) : list nat :=
  if popular c then [] else indices_from 0 b c.

(** [j2len.get(j-1, 0)] *)
Definition j2len_get (j2len : gmap nat nat) (j : nat) : nat :=
  match j with
  | O => 0
  | S j' => default 0 (j2len !! j')
  end.

(** The inner loop of [find_longest_match] for one [i]: [continue]
    below [blo], [break] from [bhi] on. *)
Fixpoint scan_row (blo bhi i : nat) (js : list nat)
    (j2len newj2len : gmap nat nat) (best : block)
    : gmap nat nat * block :=
  match js with
  | [] => (newj2len, best)
  | j :: js' =>
      if j <? blo then scan_row blo bhi i js' j2len newj2len best
      else if bhi <=? j then (newj2len, best)
      else
        let k := S (j2len_get j2len j) in
        let newj2len := <[j := k]> newj2len in
        let best := if block_size best <? k
                    then (i + 1 - k, j + 1 - k, k) else best in
        scan_row blo bhi i js' j2len newj2len best
  end.

(** The outer loop, [for i in range(alo, ahi)]. *)
Fixpoint scan_rows (blo bhi : nat) (rows : list nat)
    (j2len : gmap nat nat) (best : block) : block :=
  match rows with
  | [] => best
  | i :: rows' =>
      let js := match a !! i with Some c => b2j_get c | None => [] end in
      let '(newj2len, best') := scan_row blo bhi i js j2len ∅ best in
      scan_rows blo bhi rows' newj2len best'
  end.

Definition same_char (x y : option ascii) : bool :=
  match x, y with
  | Some c, Some d => PyChar.eqb c d
  | _, _ => false
  end.

(** [while besti > alo and bestj > blo and a[besti-1] == b[bestj-1]] *)
Fixpoint extend_left (alo blo besti bestj bestsize : nat) : block :=
  match besti, bestj with
  | S i', S j' =>
      if (alo <? besti) && (blo <? bestj) && same_char (a !! i') (b !! j')
      then extend_left alo blo i' j' (S bestsize)
      else (besti, bestj, bestsize)
  | _, _ => (besti, bestj, bestsize)
  end.

(** [while besti+bestsize < ahi and bestj+bestsize < bhi and
    a[besti+bestsize] == b[bestj+bestsize]]; [room] is
    [ahi - (besti+bestsize)], the number of turns the first test
    allows. *)
Fixpoint extend_right (room bhi besti bestj bestsize : nat) : nat :=
  match room with
  | O => bestsize
  | S room' =>
      if (bestj + bestsize <? bhi)
         && same_char (a !! (besti + bestsize)) (b !! (bestj + bestsize))
      then extend_right room' bhi besti bestj (S bestsize)
      else bestsize
  end.

(** [find_longest_match(alo, ahi, blo, bhi)].  No character is junk, so
    the two loops that absorb junk around the match never run. *)
Definition find_longest_match (alo ahi blo bhi : nat) : block :=
  let '(besti, bestj, bestsize) :=
    scan_rows blo bhi (seq alo (ahi - alo)) ∅ (alo, blo, 0) in
  let '(besti, bestj, bestsize) :=
    extend_left alo blo besti bestj bestsize in
  (besti, bestj,
   extend_right (ahi - (besti + bestsize)) bhi besti bestj bestsize).

(** The work-list loop of [get_matching_blocks]; the head of [queue] is
    the entry [queue.pop()] takes.  The loop stops when the queue is
    empty; [fuel] bounds its turns, and both the blocks found and the
    queue left are returned. *)
Fixpoint matching_loop (fuel : nat) (queue : list range4)
    (blocks : list block) : list block * list range4 :=
  match fuel, queue with
  | _, [] => (blocks, [])
  | O, _ => (blocks, queue)
  | S fuel', (alo, ahi, blo, bhi) :: queue' =>
      let '(i, j, k) := find_longest_match alo ahi blo bhi in
      if k =? 0 then matching_loop fuel' queue' blocks
      else
        let left := if (alo <? i) && (blo <? j)
                    then [(alo, i, blo, j)] else [] in
        let right := if (i + k <? ahi) && (j + k <? bhi)
                     then [(i + k, ahi, j + k, bhi)] else [] in
        matching_loop fuel' (right ++ left ++ queue')
                      (blocks ++ [(i, j, k)])
  end.

(** Every block takes at least one position of [a] and leaves at most
    two ranges behind, so [2 * len(a) + 1] turns empty the queue (see
    [DifflibFacts.matching_loop_finishes]). *)
Definition matching_fuel : nat := 2 * length a + 1.

Definition get_matching_blocks : list block :=
  fst (matching_loop matching_fuel [(0, length a, 0, length b)] []).

(** [ratio()] adds the sizes of the blocks.  ([get_matching_blocks]
    also sorts them, merges adjacent ones and appends a block of size
    0; the sum is the same.) *)
Definition matches : nat :=
  fold_right (fun m acc => block_size m + acc) 0 get_matching_blocks.

(** [_calculate_ratio(matches, len(a) + len(b))]: [2.0 * matches /
    length], or [1.0] when both are empty; as an exact fraction. *)
Definition ratio : Q :=
  match (length a + length b)%nat with
  | O => 1%Q
  | S _ as total => (Z.of_nat (2 * matches)%nat # Pos.of_nat total)%Q
  end.

End Matcher.
End Difflib.

(** ** MatchEvaluator *)

Definition DEFAULT_THRESHOLD : Q := (85 # 100)%Q.

Definition is_empty (s : string) : bool :=
  match s with EmptyString => true | _ => false end.

Definition is_title_match (screenplay_title tmdb_title : string)
    (threshold : Q) : bool :=
  let norm1 := normalize_title screenplay_title in
  let norm2 := normalize_title tmdb_title in
  if is_empty norm1 || is_empty norm2 then false
  else if String.eqb norm1 norm2 then true
  else if PyStr.contains (PyStr.of_string norm1) (PyStr.of_string norm2)
          || PyStr.contains (PyStr.of_string norm2) (PyStr.of_string norm1)
  then true
  else Qle_bool threshold
         (Difflib.ratio (PyStr.of_string norm1) (PyStr.of_string norm2)).


(** ** Values, cache entries and the cache document *)

(** A JSON value as the code observes it: [None], a boolean, an integer, a
    string, or something else (a float, a list, an object) of which only
    the truth value is ever looked at. *)
Inductive pyval : Type :=
| VNone
| VBool (b : bool)
| VInt (n : Z)
| VStr (s : string)
| VOther (truth : bool).

(** Python truthiness, as used by [if x:]. *)
Definition truthy (v : pyval) : bool :=
  match v with
  | VNone => false
  | VBool b => b
  | VInt n => negb (n =? 0)%Z
  | VStr s => negb (is_empty s)
  | VOther t => t
  end.

(** A cache entry is a [dict]: field name to value. *)
Abbreviation Entry := (gmap string pyval).

(** [d.get(key)] and [d.get(key, default)] *)
Definition dict_get (d : Entry) (key : string) : pyval :=
  default VNone (d !! key).
Definition dict_get_or (d : Entry) (key : string) (dflt : pyval) : pyval :=
  default dflt (d !! key).

(** [bool(d)] for a dict: it is true unless the dict is empty. *)
Definition dict_truthy (d : Entry) : bool := negb (bool_decide (d = ∅)).

(** The cache document [{"version", "last_updated", "entries"}].  A missing
    ["entries"] key reads as the empty mapping ([cache.get("entries", {})])
    and is created on the first write ([setdefault]); both are the empty
    [entries] here. *)
Record Cache : Type := {
  version : option Z;
  last_updated : option string;
  entries : gmap string Entry
}.

Definition set_entry (key : string) (entry : Entry) (cache : Cache) : Cache :=
  {| version := version cache;
     last_updated := last_updated cache;
     entries := <[key := entry]> (entries cache) |}.

Definition set_last_updated (stamp : string) (cache : Cache) : Cache :=
  {| version := version cache;
     last_updated := Some stamp;
     entries := entries cache |}.

Definition empty_cache : Cache :=
  {| version := Some 1%Z; last_updated := None; entries := ∅ |}.

(** The override document [{"force_analyze": [...], "force_skip": [...]}];
    a missing key reads as the empty list. *)
Record Overrides : Type := {
  force_analyze : list string;
  force_skip : list string
}.

Definition no_overrides : Overrides :=
  {| force_analyze := []; force_skip := [] |}.

(** ** Exceptions *)

Inductive exn_class : Type :=
| HttpxConnectError
| HttpxTimeoutException
| HttpxHTTPStatusError
| BuiltinConnectionError
| BuiltinTimeoutError
| ValueError
| TypeError
| OtherException.

(** An exception: its class (a subclass counts as the listed class it
    derives from), the status code of the response when
    [raise_for_status] raised it, and its message. *)
Record exn : Type := {
  exn_class_of : exn_class;
  exn_status : option Z;
  exn_message : string
}.

(** A JSON file on disk, by what loading it comes to.  The loaders test
    [exists()] and then read inside
    [try: ... except (json.JSONDecodeError, IOError)]. *)
Inductive File (A : Type) : Type :=
| Missing
| Unreadable            (* [open] or [json.load] raises one of the two
                           classes the loader catches *)
| Raising (e : exn)     (* [exists()] raises [e], or the read raises an [e]
                           of another class: [UnicodeDecodeError] for
                           bytes that are not UTF-8 *)
| Json (content : A).   (* a document of the expected shape *)
Arguments Missing {A}.
Arguments Unreadable {A}.
Arguments Raising {A} e.
Arguments Json {A} content.

(** What [open(CACHE_FILE, 'w')] followed by [json.dump] comes to, inside
    [try: ... except IOError]. *)
Inductive WriteOutcome : Type :=
| Written               (* the document is on disk *)
| OpenRefused           (* [open] raises [IOError]; the file is as before *)
| DumpInterrupted       (* [open] has emptied the file, then the write
                           raises [IOError] *)
| DumpRaises (e : exn). (* [open] has emptied the file, then [json.dump]
                           raises [e], which is not an [IOError] *)

(** A [datetime] value, as microseconds: naive, as [datetime.now()] is, or
    aware of a UTC offset, as [fromisoformat] reads a stamp that carries
    one. *)
Inductive datetime : Type :=
| Naive (t : Z)
| Aware (t : Z).

(** ** Configuration constants *)

Definition CACHE_EXPIRY_DAYS : Z := 30.
Definition PRODUCED_STATUSES : list string :=
  ["Released"; "Post Production"; "In Production"].

Definition MICROSECONDS_PER_DAY : Z := 86400 * 1000000.

(** [timedelta(days=d)] *)
Definition timedelta_days (d : Z) : Z := (d * MICROSECONDS_PER_DAY)%Z.

Definition exn_class_eqb (c d : exn_class) : bool :=
  match c, d with
  | HttpxConnectError, HttpxConnectError
  | HttpxTimeoutException, HttpxTimeoutException
  | HttpxHTTPStatusError, HttpxHTTPStatusError
  | BuiltinConnectionError, BuiltinConnectionError
  | BuiltinTimeoutError, BuiltinTimeoutError
  | ValueError, ValueError
  | TypeError, TypeError
  | OtherException, OtherException => true
  | _, _ => false
  end.

Definition RETRYABLE_EXCEPTIONS : list exn_class :=
  [ HttpxConnectError; HttpxTimeoutException; HttpxHTTPStatusError;
    BuiltinConnectionError; BuiltinTimeoutError ].

(** [retry_if_exception_type(classes)] *)
Definition retry_if_exception_type (classes : list exn_class) (e : exn) : bool :=
  existsb (exn_class_eqb (exn_class_of e)) classes.

(** [stop_after_attempt(3)] *)
Definition STOP_AFTER_ATTEMPT : nat := 3.

(** [raise_for_status()] raising for a response with the given code. *)
Definition http_status_error (status : Z) : exn :=
  {| exn_class_of := HttpxHTTPStatusError;
     exn_status := Some status;
     exn_message := "HTTP status error" |}.

Definition value_error (msg : string) : exn :=
  {| exn_class_of := ValueError; exn_status := None; exn_message := msg |}.
Definition type_error (msg : string) : exn :=
  {| exn_class_of := TypeError; exn_status := None; exn_message := msg |}.

(** The helper of [network_utils.py]. *)
Definition is_retryable_http_status (status_code : Z) : bool :=
  existsb (Z.eqb status_code) [408; 429; 500; 502; 503; 504; 529]%Z.

(** ** The TMDB service *)

(** One candidate of [/search/movie]: [result.get("title", "")],
    [result.get("release_date", "")] and [result.get("id")]. *)
Record SearchResult : Type := {
  sr_title : string;
  sr_release_date : string;
  sr_id : option Z
}.

Inductive Request : Type :=
| SearchMovie (api_key query : string)           (* GET /search/movie *)
| MovieDetails (api_key : string) (movie_id : option Z).  (* GET /movie/<id> *)

(** The JSON object of a successful response, read through
    [data.get("results", [])] and [details.get("status", ...)]. *)
Record Body : Type := {
  body_results : list SearchResult;
  body_status : option string
}.

(** What one [client.get(...)], [raise_for_status()] and [json()] come to. *)
Inductive Response : Type :=
| Fails (e : exn)
| Answers (body : Body).

(** ** Log, console and decision records *)

Inductive Level : Type := DEBUG | INFO | WARNING | ERROR.

Inductive LogMsg : Type :=
| LogCacheLoadFailed
| LogCacheSaveFailed
| LogOverridesLoadFailed
| LogCacheExpired (title : string)
| LogRetrying (e : exn)                        (* [before_sleep_log] *)
| LogSearching (title : string)
| LogSearchFailed (e : exn)
| LogSkippingEarlier (tmdb_title : string) (release_year year_context : Z)
| LogDetailsFailed (tmdb_title : string) (e : exn)
| LogUnexpected (e : exn).

(** The reason string of a decision, by the format that builds it. *)
Inductive Reason : Type :=
| ReasonCached (title release_date status : pyval)
| ReasonSearchFailed (e : exn)
| ReasonNoFilms
| ReasonProduced (tmdb_title release_date status : string)
| ReasonNoneProduced (checked : nat).

Inductive Line : Type :=
| PrintReason (r : Reason)
| PrintForceAnalyze (title : string)
| PrintForceSkip (title : string)
| PrintMissingKey
| PrintError (e : exn).

(** The tuple [(is_produced, reason_string, details_dict)]. *)
Definition Decision : Type := pyval * Reason * Entry.

Definition is_produced_of (d : Decision) : pyval := fst (fst d).
Definition reason_of (d : Decision) : Reason := snd (fst d).
Definition details_of (d : Decision) : Entry := snd d.

(** ** [int(s)] on a string and [s.split("-")[0]] *)

Module PyInt.
Import PyStr.

(** The spaces [int] skips around the number. *)
Definition isspace (c : ascii) : bool :=
  PyChar.in_range 9 13 c || (PyChar.code c =? 32)%N
  || (PyChar.code c =? 133)%N || (PyChar.code c =? 160)%N.

Fixpoint lskip (t : text) : text :=
  match t with
  | c :: r => if isspace c then lskip r else t
  | [] => []
  end.

Definition digit_value (c : ascii) : Z := Z.of_N (PyChar.code c - 48).

(** Decimal digits, with single underscores allowed between two digits. *)
Fixpoint digits (acc : Z) (t : text) : option Z :=
  match t with
  | d :: r =>
      if PyChar.isdigit d then
        let acc := (acc * 10 + digit_value d)%Z in
        match r with
        | [] => Some acc
        | "_"%char :: r' => digits acc r'
        | _ => digits acc r
        end
      else None
  | [] => None
  end.

(** [int(t)]; [None] stands for [ValueError]. *)
Definition int (t : text) : option Z :=
  match lskip (rev (lskip (rev t))) with
  | "+"%char :: r => digits 0 r
  | "-"%char :: r => option_map Z.opp (digits 0 r)
  | r => digits 0 r
  end.

(** [t.split("-")[0]]: the text before the first hyphen. *)
Fixpoint before_hyphen (t : text) : text :=
  match t with
  | [] => []
  | c :: r => if PyChar.eqb c "-"%char then [] else c :: before_hyphen r
  end.

(** [int(release_date.split("-")[0])] *)
Definition release_year (release_date : string) : option Z :=
  int (before_hyphen (of_string release_date)).

End PyInt.

(** ** The world around one process

    What the process cannot decide is the environment [Env]: the wall
    clock, the TMDB service, whether the directory of the cache can be
    created and its file written, the override file and the
    [TMDB_API_KEY] variable.  The clock and the
    service answer by the number of questions asked so far, so two calls
    may see different answers.  What the process changes is the [State]. *)

Record Env : Type := {
  clock : nat -> Z;                        (* successive [datetime.now()] *)
  tmdb : nat -> Request -> Response;       (* answer to the n-th request *)
  cache_dir_error : option exn;            (* what [CACHE_FILE.parent.mkdir]
                                              raises, if it does *)
  cache_write : WriteOutcome;              (* how writing CACHE_FILE ends *)
  overrides_file : File Overrides;
  api_key_env : option string
}.

Record State : Type := {
  ticks : nat;                             (* readings of the clock so far *)
  requests : list Request;                 (* HTTP requests sent, oldest first *)
  naps : nat;                              (* sleeps between attempts *)
  cache_file : File Cache;
  log : list (Level * LogMsg);
  console : list Line
}.

Definition initial_state (file : File Cache) : State :=
  {| ticks := 0; requests := []; naps := 0; cache_file := file;
     log := []; console := [] |}.

(** The result of a computation: a value, or a raised exception. *)
Inductive Outcome (A : Type) : Type :=
| Return (a : A)
| Raise (e : exn).
Arguments Return {A} a.
Arguments Raise {A} e.

Definition M (A : Type) : Type := State -> Outcome A * State.

Definition ret {A} (a : A) : M A := fun st => (Return a, st).

Definition raise {A} (e : exn) : M A := fun st => (Raise e, st).

Definition bind {A B} (m : M A) (k : A -> M B) : M B :=
  fun st =>
    match m st with
    | (Return a, st') => k a st'
    | (Raise e, st') => (Raise e, st')
    end.

(** [try: m  except Exception as e: handler(e)] *)
Definition try_except {A} (m : M A) (handler : exn -> M A) : M A :=
  fun st =>
    match m st with
    | (Return a, st') => (Return a, st')
    | (Raise e, st') => handler e st'
    end.

Notation "x <- m ;; k" := (bind m (fun x => k))
  (at level 100, m at next level, right associativity).
Notation "m ;;; k" := (bind m (fun _ => k))
  (at level 100, right associativity).

Section Process.
Variable env : Env.

(** [datetime.fromisoformat] ([None]: it raises) and
    [datetime.isoformat], from the standard library. *)
Variable fromisoformat : string -> option datetime.
Variable isoformat : Z -> string.

(** [datetime.now()] *)
Definition now : M Z := fun st =>
  (Return (clock env (ticks st)),
   {| ticks := S (ticks st); requests := requests st; naps := naps st;
      cache_file := cache_file st; log := log st; console := console st |}).

(** [logger.<level>(msg)] *)
Definition logger (lvl : Level) (msg : LogMsg) : M unit := fun st =>
  (Return tt,
   {| ticks := ticks st; requests := requests st; naps := naps st;
      cache_file := cache_file st; log := log st ++ [(lvl, msg)];
      console := console st |}).

(** [print(...)] *)
Definition print (line : Line) : M unit := fun st =>
  (Return tt,
   {| ticks := ticks st; requests := requests st; naps := naps st;
      cache_file := cache_file st; log := log st;
      console := console st ++ [line] |}).

(** The wait between two attempts. *)
Definition sleep : M unit := fun st =>
  (Return tt,
   {| ticks := ticks st; requests := requests st; naps := S (naps st);
      cache_file := cache_file st; log := log st; console := console st |}).

(** One HTTP exchange: [client.get], [raise_for_status], [json]. *)
Definition http_get (req : Request) : M Body := fun st =>
  let st' :=
    {| ticks := ticks st; requests := requests st ++ [req]; naps := naps st;
       cache_file := cache_file st; log := log st; console := console st |} in
  match tmdb env (length (requests st)) req with
  | Fails e => (Raise e, st')
  | Answers body => (Return body, st')
  end.

Definition write_cache_file (file : File Cache) : M unit := fun st =>
  (Return tt,
   {| ticks := ticks st; requests := requests st; naps := naps st;
      cache_file := file; log := log st; console := console st |}).

Definition read_cache_file : M (File Cache) := fun st =>
  (Return (cache_file st), st).

(** *** The cache on disk *)

Definition load_cache : M Cache :=
  file <- read_cache_file ;;
  match file with
  | Json cache => ret cache
  | Unreadable => logger WARNING LogCacheLoadFailed ;;; ret empty_cache
  | Raising e => raise e
  | Missing => ret empty_cache
  end.

(** [CACHE_FILE.parent.mkdir(parents=True, exist_ok=True)], which stands
    before the [try] of [save_cache]. *)
Definition mkdir_cache_dir : M unit :=
  match cache_dir_error env with
  | Some e => raise e
  | None => ret tt
  end.

(** [save_cache] creates the directory, then stamps the dict it was given,
    so the stamped cache is returned to stand for the mutated argument.
    [open(..., 'w')] empties the file before anything is written: a write
    that fails after it leaves a file [json.load] cannot read.  Only an
    [IOError] is caught and logged. *)
Definition save_cache (cache : Cache) : M Cache :=
  mkdir_cache_dir ;;;
  t <- now ;;
  let cache := set_last_updated (isoformat t) cache in
  match cache_write env with
  | Written => write_cache_file (Json cache)
  | OpenRefused => logger WARNING LogCacheSaveFailed
  | DumpInterrupted =>
      write_cache_file Unreadable ;;; logger WARNING LogCacheSaveFailed
  | DumpRaises e => write_cache_file Unreadable ;;; raise e
  end ;;;
  ret cache.

Definition load_overrides : M Overrides :=
  match overrides_file env with
  | Json o => ret o
  | Unreadable => logger WARNING LogOverridesLoadFailed ;;; ret no_overrides
  | Raising e => raise e
  | Missing => ret no_overrides
  end.

(** *** ProductionCache lookup *)

Definition get_cached_result (title : string) (cache : Cache)
    : M (option Entry) :=
  let normalized := normalize_title title in
  match entries cache !! normalized with
  | None => ret None
  | Some entry =>
      let checked_at := dict_get entry "checked_at" in
      if truthy checked_at then
        match checked_at with
        | VStr stamp =>
            match fromisoformat stamp with
            | Some (Naive checked_date) =>
                t <- now ;;
                if (t - checked_date >? timedelta_days CACHE_EXPIRY_DAYS)%Z
                then logger DEBUG (LogCacheExpired title) ;;; ret None
                else ret (Some entry)
            | Some (Aware _) =>
                now ;;;
                raise (type_error
                  "can't subtract offset-naive and offset-aware datetimes")
            | None => raise (value_error "Invalid isoformat string")
            end
        | _ => raise (type_error "fromisoformat: argument must be str")
        end
      else ret (Some entry)
  end.

(** *** ExternalLookupClient *)

(** The [@retry(...)] decorator with [reraise=True]: after a failed
    attempt, an exception outside [classes] is raised at once; a listed
    one is raised when no attempt is left, and otherwise logged by
    [before_sleep], waited for, and the call made again. *)
Fixpoint retry_loop {A} (classes : list exn_class) (attempts_left : nat)
    (call : M A) : M A :=
  try_except call (fun e =>
    if retry_if_exception_type classes e then
      match attempts_left with
      | O => raise e
      | S fewer =>
          logger WARNING (LogRetrying e) ;;; sleep ;;;
          retry_loop classes fewer call
      end
    else raise e).

Definition with_retry {A} (call : M A) : M A :=
  retry_loop RETRYABLE_EXCEPTIONS (STOP_AFTER_ATTEMPT - 1) call.

Definition search_tmdb (title api_key : string) : M (list SearchResult) :=
  with_retry (data <- http_get (SearchMovie api_key title) ;;
              ret (body_results data)).

Definition get_movie_details (movie_id : option Z) (api_key : string)
    : M Body :=
  with_retry (http_get (MovieDetails api_key movie_id)).

(** *** ProductionDecisionEngine *)

(** [year_context] as a condition: given and not zero. *)
Definition year_given (year_context : option Z) : option Z :=
  match year_context with
  | Some y => if (y =? 0)%Z then None else Some y
  | None => None
  end.

(** The year test of the loop: [Some (release_year, year_context)] when
    the candidate is to be skipped as released before the context year.
    [if year_context and release_date:] guards it, and a release date that
    [int] rejects lets the candidate through. *)
Definition released_earlier (year_context : option Z) (release_date : string)
    : option (Z * Z) :=
  match year_given year_context with
  | Some y =>
      if is_empty release_date then None
      else match PyInt.release_year release_date with
           | Some release_year =>
               if (release_year <? y)%Z then Some (release_year, y)
               else None
           | None => None                 (* ValueError: pass *)
           end
  | None => None
  end.

(** The ["note"] of a medium-confidence entry. *)
Definition note_text (found : nat) : string :=
  "Found " +:+ pretty found +:+ " results but none matched criteria".

Definition negative_entry (stamp confidence : string) (note : option nat)
    : Entry :=
  let entry : Entry :=
    {[ "is_produced" := VBool false; "tmdb_id" := VNone; "title" := VNone;
       "release_date" := VNone; "status" := VNone;
       "checked_at" := VStr stamp; "confidence" := VStr confidence ]} in
  match note with
  | Some n => <["note" := VStr (note_text n)]> entry
  | None => entry
  end.

Definition positive_entry (movie_id : option Z)
    (tmdb_title release_date status stamp : string) : Entry :=
  {[ "is_produced" := VBool true;
     "tmdb_id" := match movie_id with Some i => VInt i | None => VNone end;
     "title" := VStr tmdb_title; "release_date" := VStr release_date;
     "status" := VStr status; "checked_at" := VStr stamp;
     "confidence" := VStr "high" ]}.

Definition error_details (e : exn) : Entry :=
  {[ "error" := VStr (exn_message e) ]}.

(** [cache.setdefault("entries", {})[normalize_title(title)] = entry]
    followed by [save_cache(cache)]. *)
Definition store (title : string) (entry : Entry) (cache : Cache) : M Cache :=
  save_cache (set_entry (normalize_title title) entry cache).

(** The [for result in results] loop and the code after it.  [found] is
    [len(results)] of the whole list. *)
Fixpoint check_candidates (title api_key : string) (year_context : option Z)
    (found : nat) (results : list SearchResult) (cache : Cache)
    : M (Decision * Cache) :=
  match results with
  | [] =>
      (* No matching produced films found *)
      t <- now ;;
      let entry := negative_entry (isoformat t) "medium" (Some found) in
      cache <- store title entry cache ;;
      ret ((VBool false, ReasonNoneProduced found, entry), cache)
  | result :: rest =>
      let tmdb_title := sr_title result in
      let release_date := sr_release_date result in
      let movie_id := sr_id result in
      let next := check_candidates title api_key year_context found rest cache in
      if negb (is_title_match title tmdb_title DEFAULT_THRESHOLD) then next
      else
        match released_earlier year_context release_date with
        | Some (release_year, y) =>
            logger DEBUG (LogSkippingEarlier tmdb_title release_year y) ;;;
            next
        | None =>
            status <-
              try_except
                (details <- get_movie_details movie_id api_key ;;
                 ret (default "Unknown" (body_status details)))
                (fun e =>
                   logger WARNING (LogDetailsFailed tmdb_title e) ;;;
                   (* If we have a release date, assume it's released *)
                   ret (if is_empty release_date then "Unknown"
                        else "Released")) ;;
            if existsb (String.eqb status) PRODUCED_STATUSES then
              t <- now ;;
              let entry := positive_entry movie_id tmdb_title release_date
                                          status (isoformat t) in
              cache <- store title entry cache ;;
              ret ((VBool true,
                    ReasonProduced tmdb_title
                      (if is_empty release_date then "N/A" else release_date)
                      status,
                    entry), cache)
            else next
        end
  end.

(** The part of [check_if_produced] below the cache check: the search
    inside [try ... except Exception], the empty answer, the candidates. *)
Definition search_and_decide (title api_key : string)
    (year_context : option Z) (cache : Cache) : M (Decision * Cache) :=
  logger INFO (LogSearching title) ;;;
  searched <-
    try_except
      (results <- search_tmdb title api_key ;; ret (inr results))
      (fun e => logger ERROR (LogSearchFailed e) ;;; ret (inl e)) ;;
  match searched with
  | inl e =>
      ret ((VBool false, ReasonSearchFailed e, error_details e), cache)
  | inr [] =>
      (* No matches found - not produced *)
      t <- now ;;
      let entry := negative_entry (isoformat t) "high" None in
      cache <- store title entry cache ;;
      ret ((VBool false, ReasonNoFilms, entry), cache)
  | inr results =>
      check_candidates title api_key year_context (length results)
                       results cache
  end.

(** [if cache is None: cache = load_cache()] *)
Definition open_cache (cache : option Cache) : M Cache :=
  match cache with
  | None => load_cache
  | Some c => ret c
  end.

(** [check_if_produced(title, api_key, year_context, cache)].  The cache
    argument is a dict the function mutates; the cache as it is on return
    is part of the result. *)
Definition check_if_produced (title api_key : string)
    (year_context : option Z) (cache : option Cache)
    : M (Decision * Cache) :=
  cache <- open_cache cache ;;
  (* Check cache first *)
  cached <- get_cached_result title cache ;;
  match cached with
  | Some entry =>
      if dict_truthy entry then
        ret ((dict_get_or entry "is_produced" (VBool false),
              ReasonCached (dict_get_or entry "title" (VStr "Unknown"))
                           (dict_get_or entry "release_date" (VStr "N/A"))
                           (dict_get_or entry "status" (VStr "Unknown")),
              entry), cache)
      else search_and_decide title api_key year_context cache
  | None => search_and_decide title api_key year_context cache
  end.

(** *** The command-line entry point *)

Record Args : Type := {
  arg_title : string;
  arg_year_context : option Z
}.

Definition listed (normalized_title : string) (titles : list string) : bool :=
  existsb (fun force_title =>
             String.eqb (normalize_title force_title) normalized_title)
          titles.

(** [main()], returning the exit code.  The exception handler at its end
    covers the call of [check_if_produced] only. *)
Definition main (args : Args) : M Z :=
  match api_key_env env with
  | None => print PrintMissingKey ;;; ret 2%Z
  | Some api_key =>
      if is_empty api_key then print PrintMissingKey ;;; ret 2%Z
      else
        (* Check for manual overrides *)
        overrides <- load_overrides ;;
        let normalized_title := normalize_title (arg_title args) in
        (* Check force_analyze list *)
        if listed normalized_title (force_analyze overrides) then
          print (PrintForceAnalyze (arg_title args)) ;;; ret 0%Z
        (* Check force_skip list *)
        else if listed normalized_title (force_skip overrides) then
          print (PrintForceSkip (arg_title args)) ;;; ret 1%Z
        else
          (* Check TMDB *)
          try_except
            (decided <- check_if_produced (arg_title args) api_key
                          (arg_year_context args) None ;;
             let '((is_produced, reason, _), _) := decided in
             print (PrintReason reason) ;;;
             if truthy is_produced then ret 1%Z else ret 0%Z)
            (fun e =>
               print (PrintError e) ;;;
               logger ERROR (LogUnexpected e) ;;;
               ret 2%Z)
  end.

End Process.

(** Does the text start with ["the "], ["a "] or ["an "]? *)
Definition leading_article (s : string) : bool :=
  existsb (fun article =>
             PyStr.starts_with (PyStr.of_string (article ++ " "))
                               (PyStr.of_string s))
          ["the"; "a"; "an"].

(** [s] occurs in [t] as a contiguous piece. *)
Definition occurs_in (s t : string) : Prop :=
  exists before after : string, t = (before ++ s ++ after)%string.

(** ** Shapes of normalised text *)

Module Shape.
Import PyStr.

(** A character as [normalize_title] leaves it: the blank, or a word
    character that [lower] keeps. *)
Definition settled (c : ascii) : bool :=
  PyChar.eqb c " "
  || (negb (PyChar.isspace c) && PyChar.isword c
      && PyChar.eqb (PyChar.lower c) c).

(** A character after lower-casing and the removal of punctuation. *)
Definition kept (c : ascii) : bool :=
  (PyChar.isword c || PyChar.isspace c) && PyChar.eqb (PyChar.lower c) c.

Definition Settled (t : text) : Prop :=
  Forall (fun c => settled c = true) t.
Definition Kept (t : text) : Prop :=
  Forall (fun c => kept c = true) t.

(** No two spaces in a row; [after_space] tells that a space precedes. *)
Fixpoint single_spaced (after_space : bool) (t : text) : bool :=
  match t with
  | [] => true
  | c :: r =>
      if PyChar.isspace c
      then negb after_space && single_spaced true r
      else single_spaced false r
  end.

End Shape.

(** ** Vocabulary of the statements *)

(** The requests sent so far are only ever added to. *)
Definition grows (st st' : State) : Prop :=
  exists more, requests st' = requests st ++ more.

Definition steady {A} (m : M A) : Prop := forall st, grows st (snd (m st)).

(** A computation whose first request is [req]. *)
Definition sends {A} (req : Request) (m : M A) : Prop :=
  forall st, exists more,
    requests (snd (m st)) = requests st ++ req :: more.

(** A computation that returns and sends nothing. *)
Definition quiet {A} (m : M A) : Prop :=
  forall st, exists a st',
    m st = (Return a, st') /\ requests st' = requests st.

(** [e] is what [save_cache] raises in this environment: what the
    creation of the directory raises or, the directory being there, what
    [json.dump] raises. *)
Definition save_raises (env : Env) (e : exn) : Prop :=
  cache_dir_error env = Some e
  \/ (cache_dir_error env = None /\ cache_write env = DumpRaises e).

(** The decision [check_if_produced] builds from a cached entry. *)
Definition cached_decision (entry : Entry) : Decision :=
  (dict_get_or entry "is_produced" (VBool false),
   ReasonCached (dict_get_or entry "title" (VStr "Unknown"))
                (dict_get_or entry "release_date" (VStr "N/A"))
                (dict_get_or entry "status" (VStr "Unknown")),
   entry).


(** A text without hyphen. *)
Definition hyphen_free (t : PyStr.text) : Prop := Forall (fun c => c <> "-"%char) t.

(** The verdict of a run of [check_if_produced], when it returns. *)
Definition verdict (run : Outcome (Decision * Cache) * State) : option pyval :=
  match fst run with
  | Return (decision, _) => Some (is_produced_of decision)
  | Raise _ => None
  end.

(** The state after one request has been sent. *)
Definition sent (req : Request) (st : State) : State :=
  {| ticks := ticks st; requests := requests st ++ [req]; naps := naps st;
     cache_file := cache_file st; log := log st; console := console st |}.

(** The state after [before_sleep] has logged and the wait is over. *)
Definition waited (e : exn) (st : State) : State :=
  snd (sleep (snd (logger WARNING (LogRetrying e) st))).

Definition listed_class (e : exn) : bool :=
  retry_if_exception_type RETRYABLE_EXCEPTIONS e.

(** The block lies inside the ranges [alo, ahi) of [a] and [blo, bhi) of
    [b]. *)
Definition block_within (alo ahi blo bhi : nat) (m : Difflib.block) : Prop :=
  let '(i, j, k) := m in
  alo <= i /\ i + k <= ahi /\ blo <= j /\ j + k <= bhi.

(** The entries of [j2len]: lengths between 1 and [bound], of runs that
    end at a [j] below [bhi] and start at or after [blo]. *)
Definition j2len_within (blo bhi bound : nat) (j2len : gmap nat nat) : Prop :=
  forall j k, j2len !! j = Some k ->
              1 <= k /\ k <= bound /\ k <= j + 1 - blo /\ j < bhi.

Definition range_ordered (r : Difflib.range4) : Prop :=
  let '(alo, ahi, blo, bhi) := r in alo <= ahi /\ blo <= bhi.

(** The turns of the work-list loop a queue can still cost. *)
Fixpoint queue_cost (queue : list Difflib.range4) : nat :=
  match queue with
  | [] => 0
  | (alo, ahi, _, _) :: rest => 2 * (ahi - alo) + 1 + queue_cost rest
  end.

(** ** Sample worlds, to run the code on concrete inputs *)

Module Sample.

Definition connect_error : exn :=
  {| exn_class_of := HttpxConnectError; exn_status := None;
     exn_message := "All connection attempts failed" |}.

(** A few instants, as [isoformat] writes them and as microseconds from
    the first one. *)
Definition calendar : list (string * Z) :=
  [ ("2024-03-01T09:00:00", 0%Z);
    ("2024-03-30T09:00:00", timedelta_days 29);
    ("2024-04-01T09:00:00", timedelta_days 31) ].

(** A stamp that carries an offset. *)
Definition zoned_stamp : string := "2024-03-01T09:00:00+00:00".

Definition fromisoformat (s : string) : option datetime :=
  match List.find (fun p => String.eqb (fst p) s) calendar with
  | Some p => Some (Naive (snd p))
  | None => if String.eqb s zoned_stamp then Some (Aware 0) else None
  end.

Definition isoformat (t : Z) : string :=
  default "" (fst <$> List.find (fun p => Z.eqb (snd p) t) calendar).

Definition juno : SearchResult :=
  {| sr_title := "Juno"; sr_release_date := "2007-12-05";
     sr_id := Some 7326%Z |}.

Definition no_body : Body := {| body_results := []; body_status := None |}.

(** TMDB knows no film. *)
Definition empty_tmdb : nat -> Request -> Response :=
  fun _ _ => Answers no_body.

(** TMDB cannot be reached. *)
Definition unreachable_tmdb : nat -> Request -> Response :=
  fun _ _ => Fails connect_error.

(** TMDB rejects the API key. *)
Definition unauthorized_tmdb : nat -> Request -> Response :=
  fun _ _ => Fails (http_status_error 401).

(** The search finds the given candidates; the details endpoint is down. *)
Definition details_down_tmdb (found : list SearchResult)
    : nat -> Request -> Response :=
  fun _ req =>
    match req with
    | SearchMovie _ _ =>
        Answers {| body_results := found; body_status := None |}
    | MovieDetails _ _ => Fails connect_error
    end.

(** The search finds the given candidates, each with the given status. *)
Definition tmdb_with (found : list SearchResult) (status : string)
    : nat -> Request -> Response :=
  fun _ req =>
    match req with
    | SearchMovie _ _ =>
        Answers {| body_results := found; body_status := None |}
    | MovieDetails _ _ =>
        Answers {| body_results := []; body_status := Some status |}
    end.

Definition world (time : Z) (service : nat -> Request -> Response)
    (overrides : File Overrides) : Env :=
  {| clock := fun _ => time; tmdb := service; cache_dir_error := None;
     cache_write := Written; overrides_file := overrides;
     api_key_env := Some "key" |}.

Definition cache_of (title : string) (entry : Entry) : Cache :=
  set_entry title entry empty_cache.

(** [PermissionError], as [mkdir] raises it. *)
Definition permission_error : exn :=
  {| exn_class_of := OtherException; exn_status := None;
     exn_message := "[Errno 13] Permission denied" |}.

(** [UnicodeDecodeError], a [ValueError], as reading bytes that are not
    UTF-8 raises it. *)
Definition unicode_decode_error : exn :=
  value_error "'utf-8' codec can't decode byte 0xff".

(** The same world, where the directory of the cache cannot be created. *)
Definition without_cache_dir (env : Env) : Env :=
  {| clock := clock env; tmdb := tmdb env;
     cache_dir_error := Some permission_error;
     cache_write := cache_write env; overrides_file := overrides_file env;
     api_key_env := api_key_env env |}.

(** The same world, where writing the cache file ends as given. *)
Definition writing (outcome : WriteOutcome) (env : Env) : Env :=
  {| clock := clock env; tmdb := tmdb env;
     cache_dir_error := cache_dir_error env;
     cache_write := outcome; overrides_file := overrides_file env;
     api_key_env := api_key_env env |}.

End Sample.

(** ** Vocabulary of the further statements *)

(** The sizes of the blocks, added up as [ratio()] does. *)
Definition blocks_total (blocks : list Difflib.block) : nat :=
  fold_right (fun m acc => Difflib.block_size m + acc) 0 blocks.

(** The positions of [a], and of [b], that the ranges of a queue span. *)
Fixpoint queue_span_a (queue : list Difflib.range4) : nat :=
  match queue with
  | [] => 0
  | (alo, ahi, _, _) :: rest => (ahi - alo) + queue_span_a rest
  end.

Fixpoint queue_span_b (queue : list Difflib.range4) : nat :=
  match queue with
  | [] => 0
  | (_, _, blo, bhi) :: rest => (bhi - blo) + queue_span_b rest
  end.

(** * Facts about the text layer *)

Module CharFacts.
Import PyChar Shape.

Ltac by_cases c := destruct c as [[] [] [] [] [] [] [] []]; reflexivity.

Lemma lower_idem c : lower (lower c) = lower c.
Proof. by_cases c. Qed.

Lemma space_not_word c : isspace c = true -> isword c = false.
Proof. destruct c as [[] [] [] [] [] [] [] []]; cbv; congruence. Qed.

Lemma eqb_eq (a b : ascii) : eqb a b = true <-> a = b.
Proof. apply Ascii.eqb_eq. Qed.

Lemma eqb_refl (a : ascii) : eqb a a = true.
Proof. apply Ascii.eqb_refl. Qed.


Lemma settled_lower c : settled c = true -> lower c = c.
Proof. destruct c as [[] [] [] [] [] [] [] []]; cbv; congruence. Qed.

Lemma settled_word_or_space c :
  settled c = true -> isword c || isspace c = true.
Proof. destruct c as [[] [] [] [] [] [] [] []]; cbv; congruence. Qed.

Lemma settled_space c : settled c = true -> isspace c = true -> c = " "%char.
Proof. destruct c as [[] [] [] [] [] [] [] []]; cbv; congruence. Qed.

Lemma settled_not_paren c : settled c = true -> c <> "("%char.
Proof. destruct c as [[] [] [] [] [] [] [] []]; cbv; congruence. Qed.

Lemma kept_settled c : kept c = true -> isspace c = false -> settled c = true.
Proof. destruct c as [[] [] [] [] [] [] [] []]; cbv; congruence. Qed.

Lemma blank_settled : settled " " = true.
Proof. reflexivity. Qed.

Lemma blank_space : isspace " " = true.
Proof. reflexivity. Qed.

End CharFacts.

Module StripFacts.
Import PyStr.

Lemma lstrip_idem t : lstrip (lstrip t) = lstrip t.
Proof.
  induction t as [|c r IH]; simpl; [reflexivity|].
  destruct (PyChar.isspace c) eqn:E; [exact IH|].
  simpl. now rewrite E.
Qed.

Lemma lstrip_suffix t : exists s, t = s ++ lstrip t.
Proof.
  induction t as [|c r [s Hs]]; simpl.
  - now exists [].
  - destruct (PyChar.isspace c).
    + exists (c :: s). simpl. now f_equal.
    + now exists [].
Qed.

Lemma rstrip_prefix t : exists s, t = rstrip t ++ s.
Proof.
  unfold rstrip. destruct (lstrip_suffix (rev t)) as [s Hs].
  exists (rev s).
  rewrite <- rev_app_distr, <- Hs. symmetry. apply rev_involutive.
Qed.

Lemma rstrip_snoc t c :
  rstrip (t ++ [c]) = if PyChar.isspace c then rstrip t else t ++ [c].
Proof.
  unfold rstrip. rewrite rev_app_distr. simpl.
  destruct (PyChar.isspace c); [reflexivity|].
  simpl. now rewrite rev_involutive.
Qed.

Lemma lstrip_length t : length (lstrip t) <= length t.
Proof.
  induction t as [|c r IH]; simpl; [lia|].
  destruct (PyChar.isspace c); simpl; lia.
Qed.

Lemma rstrip_length t : length (rstrip t) <= length t.
Proof.
  unfold rstrip. rewrite length_rev.
  etransitivity; [apply lstrip_length|]. now rewrite length_rev.
Qed.

Lemma strip_length t : length (strip t) <= length t.
Proof.
  unfold strip. etransitivity; [apply lstrip_length|apply rstrip_length].
Qed.

Lemma rstrip_idem t : rstrip (rstrip t) = rstrip t.
Proof.
  unfold rstrip. rewrite rev_involutive. now rewrite lstrip_idem.
Qed.

(** What [rstrip] returns does not end with a space. *)
Lemma rstrip_last t u c : rstrip t = u ++ [c] -> PyChar.isspace c = false.
Proof.
  intros H. pose proof (rstrip_idem t) as Hi. rewrite H in Hi.
  rewrite rstrip_snoc in Hi.
  destruct (PyChar.isspace c); [|reflexivity].
  pose proof (rstrip_length u) as Hl. rewrite Hi in Hl.
  rewrite length_app in Hl. simpl in Hl. lia.
Qed.

Lemma lstrip_snoc t c :
  PyChar.isspace c = false -> exists w, lstrip (t ++ [c]) = w ++ [c].
Proof.
  intros Hc. induction t as [|d r [w Hw]]; simpl.
  - rewrite Hc. now exists [].
  - destruct (PyChar.isspace d).
    + now exists w.
    + now exists (d :: r).
Qed.

(** [strip] returns a text that further stripping leaves alone. *)
Lemma lstrip_strip t : lstrip (strip t) = strip t.
Proof. apply lstrip_idem. Qed.

Lemma rstrip_strip t : rstrip (strip t) = strip t.
Proof.
  unfold strip.
  destruct (rstrip t) as [|x l] eqn:E using rev_ind; [reflexivity|].
  clear IHl.
  pose proof (rstrip_last _ _ _ E) as Hx.
  destruct (lstrip_snoc l x Hx) as [w Hw]. rewrite Hw.
  rewrite rstrip_snoc. now rewrite Hx.
Qed.

Lemma strip_fixed t : lstrip t = t -> rstrip t = t -> strip t = t.
Proof. unfold strip. intros Hl Hr. now rewrite Hr. Qed.

Lemma Forall_lstrip (P : ascii -> Prop) t : Forall P t -> Forall P (lstrip t).
Proof.
  induction 1 as [|c r Hc Hr IH]; simpl; [constructor|].
  destruct (PyChar.isspace c); [exact IH|now constructor].
Qed.

Lemma Forall_rstrip (P : ascii -> Prop) t : Forall P t -> Forall P (rstrip t).
Proof.
  intros H. destruct (rstrip_prefix t) as [s Hs].
  rewrite Hs in H. now apply Forall_app in H as [H _].
Qed.

Lemma Forall_strip (P : ascii -> Prop) t : Forall P t -> Forall P (strip t).
Proof. intros H. now apply Forall_lstrip, Forall_rstrip. Qed.

Lemma strip_prefix_app p t r : strip_prefix p t = Some r <-> t = p ++ r.
Proof.
  revert t. induction p as [|a p IH]; intros t; simpl.
  - split; [now intros [= ->]|now intros ->].
  - destruct t as [|b t]; [split; discriminate|].
    destruct (PyChar.eqb a b) eqn:E.
    + apply CharFacts.eqb_eq in E as ->. rewrite IH.
      split; [now intros ->|now intros [= ->]].
    + split; [discriminate|]. intros [= -> _].
      now rewrite CharFacts.eqb_refl in E.
Qed.

Lemma starts_with_app p t : starts_with p t = true <-> exists r, t = p ++ r.
Proof.
  unfold starts_with. destruct (strip_prefix p t) as [r|] eqn:E.
  - apply strip_prefix_app in E. split; eauto.
  - split; [discriminate|]. intros [r Hr].
    apply strip_prefix_app in Hr. congruence.
Qed.

(** [needle in hay] is true exactly when [needle] is a contiguous piece
    of [hay]. *)
Lemma contains_spec needle hay :
  contains needle hay = true <-> exists p q, hay = p ++ needle ++ q.
Proof.
  induction hay as [|c r IH]; simpl.
  - rewrite orb_false_r, starts_with_app. split.
    + intros [q Hq]. now exists [], q.
    + intros (p & q & H). destruct p; [now exists q|discriminate].
  - rewrite orb_true_iff, starts_with_app, IH. split.
    + intros [[q Hq]|(p & q & ->)].
      * now exists [], q.
      * now exists (c :: p), q.
    + intros (p & q & H). destruct p as [|d p]; simpl in H.
      * left. now exists q.
      * right. injection H as _ ->. now exists p, q.
Qed.

End StripFacts.

Module NormalizeFacts.
Import PyStr Regex StripFacts Shape.


Lemma single_spaced_weaken t :
  single_spaced true t = true -> single_spaced false t = true.
Proof.
  destruct t as [|c r]; simpl; [reflexivity|].
  destruct (PyChar.isspace c); simpl; [discriminate|auto].
Qed.

Lemma single_spaced_lstrip b t :
  single_spaced b t = true -> single_spaced false (lstrip t) = true.
Proof.
  revert b. induction t as [|c r IH]; intros b; simpl; [reflexivity|].
  destruct (PyChar.isspace c) eqn:E.
  - intros H. apply andb_true_iff in H as [_ H]. eauto.
  - intros H. simpl. now rewrite E.
Qed.

Lemma single_spaced_prefix b p s :
  single_spaced b (p ++ s) = true -> single_spaced b p = true.
Proof.
  revert b. induction p as [|c r IH]; intros b; simpl; [reflexivity|].
  destruct (PyChar.isspace c).
  - intros H. apply andb_true_iff in H as [H1 H2].
    rewrite H1. simpl. eauto.
  - eauto.
Qed.

Lemma single_spaced_rstrip b t :
  single_spaced b t = true -> single_spaced b (rstrip t) = true.
Proof.
  destruct (rstrip_prefix t) as [s Hs]. intros H.
  rewrite Hs in H. eapply single_spaced_prefix, H.
Qed.

Lemma single_spaced_strip t :
  single_spaced false t = true -> single_spaced false (strip t) = true.
Proof.
  intros H. unfold strip.
  eapply single_spaced_lstrip, single_spaced_rstrip, H.
Qed.

(** *** The substitutions, one by one *)

Lemma sub_spaces_single b t : single_spaced b (sub_spaces_from b t) = true.
Proof.
  revert b. induction t as [|c r IH]; intros b; simpl; [reflexivity|].
  destruct (PyChar.isspace c) eqn:E.
  - destruct b; [apply IH|].
    simpl. apply IH.
  - simpl. rewrite E. apply IH.
Qed.

Lemma sub_spaces_settled b t : Kept t -> Settled (sub_spaces_from b t).
Proof.
  intros H. revert b. induction H as [|c r Hc Hr IH]; intros b; simpl.
  - constructor.
  - destruct (PyChar.isspace c) eqn:E.
    + destruct b; [apply IH|]. constructor; [reflexivity|apply IH].
    + constructor; [now apply CharFacts.kept_settled|apply IH].
Qed.

Lemma sub_spaces_fixed b t :
  Settled t -> single_spaced b t = true -> sub_spaces_from b t = t.
Proof.
  intros H. revert b. induction H as [|c r Hc Hr IH]; intros b; simpl.
  - reflexivity.
  - destruct (PyChar.isspace c) eqn:E.
    + intros Hs. apply andb_true_iff in Hs as [Hb Hs].
      destruct b; [discriminate|].
      rewrite (CharFacts.settled_space c Hc E). f_equal. now apply IH.
    + intros Hs. f_equal. now apply IH.
Qed.

Lemma sub_spaces_length b t : length (sub_spaces_from b t) <= length t.
Proof.
  revert b. induction t as [|c r IH]; intros b; simpl; [lia|].
  pose proof (IH true). pose proof (IH false).
  destruct (PyChar.isspace c); [destruct b|]; simpl; lia.
Qed.

Lemma year_suffix_settled t : Settled t -> year_suffix_at t = false.
Proof.
  intros H. unfold year_suffix_at.
  pose proof (Forall_lstrip _ _ H) as Hl.
  destruct (lstrip t) as [|c r]; [reflexivity|].
  inversion Hl as [|? ? Hc _]; subst.
  pose proof (CharFacts.settled_not_paren c Hc) as Hp.
  destruct c as [[] [] [] [] [] [] [] []]; try reflexivity.
  now contradiction Hp.
Qed.

Lemma sub_year_fixed t : Settled t -> sub_year t = t.
Proof.
  induction 1 as [|c r Hc Hr IH].
  - reflexivity.
  - cbn [sub_year].
    rewrite year_suffix_settled by now constructor.
    now rewrite IH.
Qed.

Lemma Forall_sub_year (P : ascii -> Prop) t : Forall P t -> Forall P (sub_year t).
Proof.
  induction 1 as [|c r Hc Hr IH]; cbn [sub_year].
  - destruct (year_suffix_at []); constructor.
  - destruct (year_suffix_at (c :: r)); constructor; assumption.
Qed.

Lemma sub_year_length t : length (sub_year t) <= length t.
Proof.
  induction t as [|c r IH]; cbn [sub_year].
  - destruct (year_suffix_at []); simpl; lia.
  - destruct (year_suffix_at (c :: r)); simpl; lia.
Qed.

Lemma sub_punct_fixed t : Settled t -> sub_punct t = t.
Proof.
  unfold sub_punct. induction 1 as [|c r Hc Hr IH]; simpl; [reflexivity|].
  rewrite (CharFacts.settled_word_or_space c Hc). now f_equal.
Qed.

Lemma sub_punct_kept t :
  Forall (fun c => PyChar.lower c = c) t -> Kept (sub_punct t).
Proof.
  unfold sub_punct. induction 1 as [|c r Hc Hr IH]; simpl; [constructor|].
  destruct (PyChar.isword c || PyChar.isspace c) eqn:E; [|exact IH].
  constructor; [|exact IH].
  unfold Shape.kept. rewrite E, Hc. apply CharFacts.eqb_refl.
Qed.

Lemma article_at_shape word t r :
  article_at word t = Some r ->
  exists c rest, t = of_string word ++ c :: rest
                 /\ PyChar.isspace c = true /\ r = lstrip rest.
Proof.
  unfold article_at.
  destruct (strip_prefix (of_string word) t) as [[|c rest]|] eqn:E;
    try discriminate.
  destruct (PyChar.isspace c) eqn:Hc; [|discriminate].
  intros [= <-]. apply strip_prefix_app in E. eauto.
Qed.

Lemma Forall_sub_article (P : ascii -> Prop) t :
  Forall P t -> Forall P (sub_article t).
Proof.
  intros H. unfold sub_article.
  repeat match goal with
  | |- context [article_at ?w t] =>
      let E := fresh "E" in
      destruct (article_at w t) eqn:E;
        [apply article_at_shape in E as (c & rest & -> & _ & ->);
         apply Forall_app in H as [_ H]; inversion H; subst;
         now apply Forall_lstrip|]
  end.
  exact H.
Qed.

Lemma of_string_app (s1 s2 : string) :
  of_string (s1 ++ s2) = of_string s1 ++ of_string s2.
Proof.
  unfold of_string. induction s1 as [|c s IH]; simpl; [reflexivity|].
  now rewrite IH.
Qed.

Lemma of_to_string t : of_string (to_string t) = t.
Proof. apply list_ascii_of_string_of_list_ascii. Qed.

Lemma to_of_string s : to_string (of_string s) = s.
Proof. apply string_of_list_ascii_of_string. Qed.

(** On a settled text the article pattern matches only when the text
    starts with the article and a blank. *)
Lemma article_at_settled word t r :
  Settled t -> article_at word t = Some r ->
  starts_with (of_string (word ++ " ")) t = true.
Proof.
  intros H E. apply article_at_shape in E as (c & rest & -> & Hc & _).
  apply Forall_app in H as [_ H]. inversion H as [|? ? Hs _]; subst.
  rewrite (CharFacts.settled_space c Hs Hc).
  apply starts_with_app. exists rest.
  rewrite of_string_app. simpl. now rewrite <- app_assoc.
Qed.

Lemma sub_article_fixed t :
  Settled t -> leading_article (to_string t) = false -> sub_article t = t.
Proof.
  intros H Hl. unfold leading_article in Hl. cbn [existsb] in Hl.
  rewrite of_to_string in Hl.
  repeat (apply orb_false_iff in Hl as [? Hl]).
  unfold sub_article.
  repeat match goal with
  | |- context [article_at ?w t] =>
      let E := fresh "E" in
      destruct (article_at w t) eqn:E;
        [apply article_at_settled in E; [congruence|assumption]|]
  end.
  reflexivity.
Qed.

(** *** The whole normaliser *)

Lemma normalize_text_unfold t :
  normalize_text t =
  strip (sub_spaces (sub_article (sub_punct (sub_year (strip (lower t)))))).
Proof. destruct t; reflexivity. Qed.

Lemma lower_lowered t : Forall (fun c => PyChar.lower c = c) (lower t).
Proof.
  unfold lower. induction t; simpl; constructor; auto.
  apply CharFacts.lower_idem.
Qed.

Lemma lower_fixed t : Settled t -> lower t = t.
Proof.
  unfold lower. induction 1 as [|c r Hc Hr IH]; simpl; [reflexivity|].
  now rewrite (CharFacts.settled_lower c Hc), IH.
Qed.

Lemma normalize_settled t : Settled (normalize_text t).
Proof.
  rewrite normalize_text_unfold.
  apply Forall_strip, sub_spaces_settled, Forall_sub_article, sub_punct_kept.
  apply Forall_sub_year, Forall_strip, lower_lowered.
Qed.

Lemma normalize_single_spaced t :
  single_spaced false (normalize_text t) = true.
Proof.
  rewrite normalize_text_unfold.
  apply single_spaced_strip, sub_spaces_single.
Qed.

Lemma normalize_stripped t :
  lstrip (normalize_text t) = normalize_text t
  /\ rstrip (normalize_text t) = normalize_text t.
Proof.
  rewrite normalize_text_unfold. split;
    [apply lstrip_strip|apply rstrip_strip].
Qed.

(** A text that is settled, stripped and single-spaced, and does not
    start with an article, is its own normal form. *)
Lemma normalize_fixed t :
  Settled t -> lstrip t = t -> rstrip t = t ->
  single_spaced false t = true ->
  leading_article (to_string t) = false ->
  normalize_text t = t.
Proof.
  intros Hs Hl Hr Hsp Ha.
  rewrite normalize_text_unfold.
  rewrite (lower_fixed t Hs), (strip_fixed t Hl Hr).
  rewrite (sub_year_fixed t Hs), (sub_punct_fixed t Hs).
  rewrite (sub_article_fixed t Hs Ha).
  unfold sub_spaces. rewrite (sub_spaces_fixed false t Hs Hsp).
  now apply strip_fixed.
Qed.

End NormalizeFacts.

(** * TitleNormalizer: the claims *)

Module RenormalizeFacts.
Import PyStr NormalizeFacts Shape.

Lemma sub_article_shorter t :
  leading_article (to_string t) = true ->
  length (Regex.sub_article t) < length t.
Proof.
  unfold leading_article. cbn [existsb]. rewrite of_to_string.
  rewrite orb_false_r, !orb_true_iff, !StripFacts.starts_with_app.
  intros [[r ->]|[[r ->]|[r ->]]]; simpl;
    pose proof (StripFacts.lstrip_length r);
    match goal with
    | |- length (Regex.sub_article ?t) < _ =>
        change (Regex.sub_article t) with (lstrip r)
    end; lia.
Qed.

Lemma normalize_clean_shape t :
  Settled t -> lstrip t = t -> rstrip t = t ->
  normalize_text t = strip (Regex.sub_spaces (Regex.sub_article t)).
Proof.
  intros Hs Hl Hr. rewrite normalize_text_unfold.
  rewrite (lower_fixed t Hs), (StripFacts.strip_fixed t Hl Hr).
  now rewrite (sub_year_fixed t Hs), (sub_punct_fixed t Hs).
Qed.

Lemma normalize_text_shrinks t :
  Settled t -> lstrip t = t -> rstrip t = t ->
  leading_article (to_string t) = true ->
  length (normalize_text t) < length t.
Proof.
  intros Hs Hl Hr Ha. rewrite (normalize_clean_shape t Hs Hl Hr).
  pose proof (sub_article_shorter t Ha).
  pose proof (StripFacts.strip_length
                (Regex.sub_spaces (Regex.sub_article t))).
  pose proof (sub_spaces_length false (Regex.sub_article t)).
  unfold Regex.sub_spaces in *. lia.
Qed.

(** Normalising a normal form again changes it exactly when it starts
    with an article. *)
Lemma renormalize_text t :
  normalize_text (normalize_text t) = normalize_text t
  <-> leading_article (to_string (normalize_text t)) = false.
Proof.
  pose proof (normalize_settled t) as Hs.
  destruct (normalize_stripped t) as [Hl Hr].
  pose proof (normalize_single_spaced t) as Hsp.
  split.
  - intros Heq.
    destruct (leading_article (to_string (normalize_text t))) eqn:Ha;
      [|reflexivity].
    pose proof (normalize_text_shrinks _ Hs Hl Hr Ha) as Hlt.
    rewrite Heq in Hlt. lia.
  - now apply normalize_fixed.
Qed.

End RenormalizeFacts.

(** C4 (refuted as stated): normalising twice is not always the same as
    normalising once.  ["The A Team"] normalises to ["a team"], which
    normalises to ["team"]. *)
Lemma normalize_title_not_idempotent :
  normalize_title "The A Team" = "a team"
  /\ normalize_title (normalize_title "The A Team") = "team"
  /\ normalize_title (normalize_title "The A Team")
     <> normalize_title "The A Team".
Proof. repeat split. discriminate. Qed.

(** C4 (amended): [normalize_title (normalize_title x)] equals
    [normalize_title x] exactly for the titles [x] whose normal form does
    not itself start with ["the "], ["a "] or ["an "]; and
    ["THE BUCKET LIST"] and ["Bucket List"] have the same normal form. *)
Theorem normalize_title_idempotent_unless_article :
  (forall x : string,
     leading_article (normalize_title x) = false ->
     normalize_title (normalize_title x) = normalize_title x)
  /\ (forall x : string,
        normalize_title (normalize_title x) = normalize_title x ->
        leading_article (normalize_title x) = false)
  /\ normalize_title "THE BUCKET LIST" = normalize_title "Bucket List".
Proof.
  split; [|split; [|reflexivity]]; intros x; unfold normalize_title;
    rewrite NormalizeFacts.of_to_string; intros H.
  - f_equal. now apply RenormalizeFacts.renormalize_text.
  - apply RenormalizeFacts.renormalize_text.
    apply (f_equal PyStr.of_string) in H.
    now rewrite !NormalizeFacts.of_to_string in H.
Qed.

Lemma normalize_title_idempotent_unless_article_witness :
  leading_article (normalize_title "Juno (2007)") = false
  /\ normalize_title (normalize_title "Juno (2007)")
     = normalize_title "Juno (2007)".
Proof.
  split; [reflexivity|].
  apply (proj1 normalize_title_idempotent_unless_article). reflexivity.
Defined.


(** * [difflib]: the work-list loop ends within its fuel *)

Module DifflibFacts.
Import Difflib.

Section Bounds.
Variables a b : PyStr.text.

Lemma j2len_get_bound blo bhi bound j2len j :
  j2len_within blo bhi bound j2len -> blo <= j ->
  j2len_get j2len j <= bound /\ S (j2len_get j2len j) <= j + 1 - blo.
Proof.
  intros H Hj. destruct j as [|j']; simpl; [lia|].
  destruct (j2len !! j') as [k|] eqn:E; simpl; [|lia].
  destruct (H j' k E) as (H1 & H2 & H3 & H4). lia.
Qed.

Lemma scan_row_within alo blo bhi i js : forall j2len newj2len best,
  alo <= i ->
  j2len_within blo bhi (i - alo) j2len ->
  j2len_within blo bhi (i + 1 - alo) newj2len ->
  block_within alo (i + 1) blo bhi best ->
  let '(newj2len', best') := scan_row blo bhi i js j2len newj2len best in
  j2len_within blo bhi (i + 1 - alo) newj2len'
  /\ block_within alo (i + 1) blo bhi best'.
Proof.
  induction js as [|j js IH]; intros j2len newj2len best Hi Hold Hnew Hbest;
    cbn [scan_row]; [now split|].
  destruct (Nat.ltb_spec j blo) as [_|Hblo]; [now apply IH|].
  destruct (Nat.leb_spec bhi j) as [_|Hbhi]; [now split|].
  destruct (j2len_get_bound blo bhi (i - alo) j2len j Hold Hblo) as [Hk1 Hk2].
  apply IH; try assumption.
  - intros j0 k0. rewrite lookup_insert.
    destruct (decide (j = j0)) as [<-|_]; [|apply Hnew].
    intros [= <-]. lia.
  - destruct best as [[bi bj] bs]. unfold block_size. cbn [snd].
    destruct (Nat.ltb_spec bs (S (j2len_get j2len j))); [|exact Hbest].
    unfold block_within. lia.
Qed.

Lemma block_within_later alo ahi ahi' blo bhi m :
  ahi <= ahi' -> block_within alo ahi blo bhi m ->
  block_within alo ahi' blo bhi m.
Proof. destruct m as [[i j] k]. unfold block_within. lia. Qed.

Lemma j2len_within_empty blo bhi bound : j2len_within blo bhi bound ∅.
Proof. intros j k H. now rewrite lookup_empty in H. Qed.

Lemma scan_rows_within alo blo bhi n : forall i j2len best,
  alo <= i ->
  j2len_within blo bhi (i - alo) j2len ->
  block_within alo i blo bhi best ->
  block_within alo (i + n) blo bhi
    (scan_rows a b blo bhi (seq i n) j2len best).
Proof.
  induction n as [|n IH]; intros i j2len best Hi Hold Hbest;
    cbn [seq scan_rows].
  - now rewrite Nat.add_0_r.
  - pose proof (scan_row_within alo blo bhi i
                  (match a !! i with Some c => b2j_get b c | None => [] end)
                  j2len ∅ best Hi Hold
                  (j2len_within_empty _ _ _)
                  (block_within_later _ i (i + 1) _ _ _ ltac:(lia) Hbest))
      as Hrow.
    destruct (scan_row blo bhi i _ j2len ∅ best) as [newj2len best'].
    destruct Hrow as [Hnew Hbest'].
    replace (i + S n) with (S i + n) by lia.
    apply IH; [lia| |].
    + now replace (S i - alo) with (i + 1 - alo) by lia.
    + now replace (S i) with (i + 1) by lia.
Qed.

Lemma extend_left_within alo ahi blo bhi besti : forall bestj bestsize,
  block_within alo ahi blo bhi (besti, bestj, bestsize) ->
  block_within alo ahi blo bhi (extend_left a b alo blo besti bestj bestsize).
Proof.
  induction besti as [|i' IH]; intros bestj bestsize H; cbn [extend_left];
    [exact H|].
  destruct bestj as [|j']; [exact H|].
  destruct (Nat.ltb_spec alo (S i')); cbn [andb]; [|exact H].
  destruct (Nat.ltb_spec blo (S j')); cbn [andb]; [|exact H].
  destruct (same_char _ _); [|exact H].
  apply IH. unfold block_within in *. lia.
Qed.

Lemma extend_right_within ahi bhi besti bestj room : forall bestsize,
  besti + bestsize + room <= ahi -> bestj + bestsize <= bhi ->
  let size := extend_right a b room bhi besti bestj bestsize in
  besti + size <= ahi /\ bestj + size <= bhi /\ bestsize <= size.
Proof.
  induction room as [|room IH]; intros bestsize Ha Hb; cbn [extend_right];
    [lia|].
  destruct (Nat.ltb_spec (bestj + bestsize) bhi); cbn [andb]; [|lia].
  destruct (same_char _ _); [|lia].
  destruct (IH (S bestsize)) as (H1 & H2 & H3); lia.
Qed.

(** [find_longest_match] answers with a block inside the ranges it was
    given. *)
Lemma find_longest_match_within alo ahi blo bhi :
  alo <= ahi -> blo <= bhi ->
  block_within alo ahi blo bhi (find_longest_match a b alo ahi blo bhi).
Proof.
  intros Ha Hb. unfold find_longest_match.
  pose proof (scan_rows_within alo blo bhi (ahi - alo) alo ∅ (alo, blo, 0)
                (Nat.le_refl _) (j2len_within_empty _ _ _)) as Hscan.
  replace (alo + (ahi - alo)) with ahi in Hscan by lia.
  specialize (Hscan ltac:(unfold block_within; lia)).
  destruct (scan_rows a b blo bhi _ ∅ (alo, blo, 0)) as [[i1 j1] k1].
  pose proof (extend_left_within alo ahi blo bhi i1 j1 k1 Hscan) as Hleft.
  destruct (extend_left a b alo blo i1 j1 k1) as [[i2 j2] k2].
  unfold block_within in Hleft.
  destruct (extend_right_within ahi bhi i2 j2 (ahi - (i2 + k2)) k2)
    as (H1 & H2 & H3); [lia|lia|].
  unfold block_within. lia.
Qed.

Lemma queue_cost_app q1 q2 :
  queue_cost (q1 ++ q2) = queue_cost q1 + queue_cost q2.
Proof.
  induction q1 as [|[[[alo ahi] blo] bhi] q1 IH]; simpl; [reflexivity|].
  rewrite IH. lia.
Qed.

(** With fuel for the cost of the queue, the loop stops on an empty
    queue. *)
Lemma matching_loop_empties fuel : forall queue blocks,
  Forall range_ordered queue ->
  queue_cost queue <= fuel ->
  snd (matching_loop a b fuel queue blocks) = [].
Proof.
  induction fuel as [|fuel IH]; intros queue blocks Hq Hc.
  - destruct queue as [|[[[alo ahi] blo] bhi] q]; [reflexivity|].
    simpl in Hc. lia.
  - destruct queue as [|[[[alo ahi] blo] bhi] q]; [reflexivity|].
    cbn [matching_loop]. inversion Hq as [|? ? Hr Hq']; subst.
    destruct Hr as [Ha Hb].
    pose proof (find_longest_match_within alo ahi blo bhi Ha Hb) as Hm.
    destruct (find_longest_match a b alo ahi blo bhi) as [[i j] k].
    unfold block_within in Hm. cbn [queue_cost] in Hc.
    destruct (Nat.eqb_spec k 0) as [->|Hk]; [apply IH; [exact Hq'|lia]|].
    apply IH.
    + apply Forall_app. split; [|apply Forall_app; split; [|exact Hq']].
      * destruct (Nat.ltb_spec (i + k) ahi); cbn [andb];
          [destruct (Nat.ltb_spec (j + k) bhi)|]; repeat constructor; lia.
      * destruct (Nat.ltb_spec alo i); cbn [andb];
          [destruct (Nat.ltb_spec blo j)|]; repeat constructor; lia.
    + rewrite !queue_cost_app.
      match goal with
      | |- queue_cost ?r + (queue_cost ?l + _) <= _ =>
          assert (queue_cost r <= 2 * (ahi - (i + k)) + 1)
            by (destruct ((i + k <? ahi) && (j + k <? bhi)); simpl; lia);
          assert (queue_cost l <= 2 * (i - alo) + 1)
            by (destruct ((alo <? i) && (blo <? j)); simpl; lia);
          generalize dependent (queue_cost r);
          generalize dependent (queue_cost l)
      end.
      intros. lia.
Qed.

End Bounds.

(** [get_matching_blocks] runs its loop to the end: the fuel
    [2 * len(a) + 1] is never used up. *)
Lemma matching_loop_finishes a b :
  snd (matching_loop a b (matching_fuel a) [(0, length a, 0, length b)] [])
  = [].
Proof.
  apply matching_loop_empties.
  - repeat constructor; lia.
  - unfold matching_fuel. simpl. lia.
Qed.

End DifflibFacts.

(** * MatchEvaluator: the claims *)

Module MatchFacts.
Import PyStr NormalizeFacts.

Lemma to_string_app (t1 t2 : text) :
  to_string (t1 ++ t2) = (to_string t1 ++ to_string t2)%string.
Proof.
  unfold to_string. induction t1 as [|c r IH]; simpl; [reflexivity|].
  now rewrite IH.
Qed.

Lemma is_empty_true s : is_empty s = true <-> s = "".
Proof. destruct s; simpl; split; congruence. Qed.

Lemma is_empty_false s : is_empty s = false <-> s <> "".
Proof. destruct s; simpl; split; congruence. Qed.

(** The membership test on texts is the occurrence of one string in the
    other. *)
Lemma contains_occurs (s t : string) :
  contains (of_string s) (of_string t) = true <-> occurs_in s t.
Proof.
  rewrite StripFacts.contains_spec. unfold occurs_in. split.
  - intros (p & q & H). exists (to_string p), (to_string q).
    apply (f_equal to_string) in H.
    now rewrite !to_string_app, !to_of_string in H.
  - intros (p & q & ->). exists (of_string p), (of_string q).
    now rewrite !of_string_app.
Qed.

End MatchFacts.

(** C5: [is_title_match] is false whenever one side normalises to the
    empty string; otherwise it is true exactly when the normal forms are
    equal, or one occurs in the other, or the similarity ratio of
    [SequenceMatcher] reaches the threshold.  With the default threshold
    0.85, ["Juno"] matches ["Juno: A Film"] and does not match
    ["Juneau"]. *)
Theorem is_title_match_decides :
  (forall (a b : string) (threshold : Q),
     normalize_title a = "" \/ normalize_title b = "" ->
     is_title_match a b threshold = false)
  /\ (forall (a b : string) (threshold : Q),
        normalize_title a <> "" -> normalize_title b <> "" ->
        (is_title_match a b threshold = true
         <-> normalize_title a = normalize_title b
             \/ occurs_in (normalize_title a) (normalize_title b)
             \/ occurs_in (normalize_title b) (normalize_title a)
             \/ (threshold <=
                 Difflib.ratio (PyStr.of_string (normalize_title a))
                               (PyStr.of_string (normalize_title b)))%Q))
  /\ is_title_match "Juno" "Juno: A Film" DEFAULT_THRESHOLD = true
  /\ is_title_match "Juno" "Juneau" DEFAULT_THRESHOLD = false.
Proof.
  split; [|split; [|split; vm_compute; reflexivity]].
  - intros a b threshold H. unfold is_title_match.
    destruct H as [H|H]; rewrite H; simpl; [reflexivity|].
    now rewrite orb_true_r.
  - intros a b threshold Ha Hb. unfold is_title_match.
    apply MatchFacts.is_empty_false in Ha, Hb. rewrite Ha, Hb. simpl.
    destruct (String.eqb_spec (normalize_title a) (normalize_title b)) as [E|E].
    { split; auto. }
    destruct (PyStr.contains (PyStr.of_string (normalize_title a))
                             (PyStr.of_string (normalize_title b))) eqn:C1.
    { apply MatchFacts.contains_occurs in C1. simpl. split; auto. }
    destruct (PyStr.contains (PyStr.of_string (normalize_title b))
                             (PyStr.of_string (normalize_title a))) eqn:C2.
    { apply MatchFacts.contains_occurs in C2. simpl. split; auto. }
    simpl. rewrite Qle_bool_iff. split; [auto|].
    intros [H|[H|[H|H]]]; [contradiction| | |exact H].
    + apply MatchFacts.contains_occurs in H. congruence.
    + apply MatchFacts.contains_occurs in H. congruence.
Qed.

Lemma is_title_match_decides_witness :
  (normalize_title "Hanna" <> "" /\ normalize_title "Hannah" <> "")
  /\ (is_title_match "Hanna" "Hannah" DEFAULT_THRESHOLD = true
      <-> normalize_title "Hanna" = normalize_title "Hannah"
          \/ occurs_in (normalize_title "Hanna") (normalize_title "Hannah")
          \/ occurs_in (normalize_title "Hannah") (normalize_title "Hanna")
          \/ (DEFAULT_THRESHOLD <=
              Difflib.ratio (PyStr.of_string (normalize_title "Hanna"))
                            (PyStr.of_string (normalize_title "Hannah")))%Q).
Proof.
  split; [split; discriminate|].
  apply (proj1 (proj2 is_title_match_decides)); discriminate.
Defined.

(** * The process: general facts *)

Module MonadFacts.

Lemma bind_return {A B} (m : M A) (k : A -> M B) st a st' :
  m st = (Return a, st') -> bind m k st = k a st'.
Proof. unfold bind. now intros ->. Qed.

Lemma bind_raise {A B} (m : M A) (k : A -> M B) st e st' :
  m st = (Raise e, st') -> bind m k st = (Raise e, st').
Proof. unfold bind. now intros ->. Qed.

Lemma try_return {A} (m : M A) (h : exn -> M A) st a st' :
  m st = (Return a, st') -> try_except m h st = (Return a, st').
Proof. unfold try_except. now intros ->. Qed.

Lemma try_raise {A} (m : M A) (h : exn -> M A) st e st' :
  m st = (Raise e, st') -> try_except m h st = h e st'.
Proof. unfold try_except. now intros ->. Qed.


Lemma grows_refl st : grows st st.
Proof. exists []. now rewrite app_nil_r. Qed.

Lemma grows_trans st1 st2 st3 : grows st1 st2 -> grows st2 st3 -> grows st1 st3.
Proof.
  intros [m1 H1] [m2 H2]. exists (m1 ++ m2).
  now rewrite H2, H1, app_assoc.
Qed.

Ltac same_requests :=
  intros st; exists []; simpl; now rewrite app_nil_r.

Lemma steady_ret {A} (a : A) : steady (ret a).
Proof. intros st. apply grows_refl. Qed.

Lemma steady_raise {A} e : steady (@raise A e).
Proof. intros st. apply grows_refl. Qed.

Lemma steady_bind {A B} (m : M A) (k : A -> M B) :
  steady m -> (forall a, steady (k a)) -> steady (bind m k).
Proof.
  intros Hm Hk st. unfold bind. specialize (Hm st).
  destruct (m st) as [[a|e] st']; simpl in *; [|exact Hm].
  eapply grows_trans; [exact Hm|apply Hk].
Qed.

Lemma steady_try {A} (m : M A) (h : exn -> M A) :
  steady m -> (forall e, steady (h e)) -> steady (try_except m h).
Proof.
  intros Hm Hh st. unfold try_except. specialize (Hm st).
  destruct (m st) as [[a|e] st']; simpl in *; [exact Hm|].
  eapply grows_trans; [exact Hm|apply Hh].
Qed.

Lemma steady_now env : steady (now env).
Proof. same_requests. Qed.

Lemma steady_logger lvl msg : steady (logger lvl msg).
Proof. same_requests. Qed.

Lemma steady_print line : steady (print line).
Proof. same_requests. Qed.

Lemma steady_sleep : steady sleep.
Proof. same_requests. Qed.

Lemma steady_write file : steady (write_cache_file file).
Proof. same_requests. Qed.

Lemma steady_http_get env req : steady (http_get env req).
Proof.
  intros st. unfold http_get.
  destruct (tmdb env _ req); now exists [req].
Qed.

Lemma steady_if {A} (b : bool) (m1 m2 : M A) :
  steady m1 -> steady m2 -> steady (if b then m1 else m2).
Proof. now destruct b. Qed.

Create HintDb steady.
#[export] Hint Resolve steady_ret steady_raise steady_now steady_logger
  steady_print steady_sleep steady_write steady_http_get : steady.
#[export] Hint Extern 2 (steady (bind _ _)) =>
  apply steady_bind; [|intros ?] : steady.
#[export] Hint Extern 2 (steady (try_except _ _)) =>
  apply steady_try; [|intros ?] : steady.
#[export] Hint Extern 3 (steady (if _ then _ else _)) =>
  apply steady_if : steady.

Lemma steady_load_cache : steady load_cache.
Proof.
  unfold load_cache. apply steady_bind; [intros st; apply grows_refl|].
  intros [| |e|c]; auto with steady.
Qed.

Lemma steady_open_cache c : steady (open_cache c).
Proof. destruct c; simpl; auto using steady_load_cache with steady. Qed.

Lemma steady_mkdir env : steady (mkdir_cache_dir env).
Proof.
  unfold mkdir_cache_dir. destruct (cache_dir_error env); auto with steady.
Qed.

Lemma steady_save_cache env iso cache : steady (save_cache env iso cache).
Proof.
  unfold save_cache. apply steady_bind; [apply steady_mkdir|]. intros _.
  apply steady_bind; [auto with steady|]. intros t.
  apply steady_bind; [|auto with steady].
  destruct (cache_write env); auto 10 with steady.
Qed.

Lemma steady_store env iso title entry cache :
  steady (store env iso title entry cache).
Proof. apply steady_save_cache. Qed.

Lemma steady_retry_loop {A} classes n (call : M A) :
  steady call -> steady (retry_loop classes n call).
Proof.
  intros Hc. induction n as [|n IH]; simpl.
  - apply steady_try; [exact Hc|]. intros e.
    destruct (retry_if_exception_type classes e); auto with steady.
  - apply steady_try; [exact Hc|]. intros e.
    destruct (retry_if_exception_type classes e); auto 10 with steady.
Qed.

Lemma steady_get_movie_details env movie_id api_key :
  steady (get_movie_details env movie_id api_key).
Proof. apply steady_retry_loop. auto with steady. Qed.

Lemma steady_search_tmdb env title api_key :
  steady (search_tmdb env title api_key).
Proof. apply steady_retry_loop. auto with steady. Qed.

#[export] Hint Resolve steady_load_cache steady_open_cache steady_save_cache
  steady_store steady_get_movie_details steady_search_tmdb : steady.

Lemma steady_check_candidates env iso title api_key yc found results cache :
  steady (check_candidates env iso title api_key yc found results cache).
Proof.
  induction results as [|result rest IH]; cbn [check_candidates].
  - auto 10 with steady.
  - destruct (negb _); [exact IH|].
    destruct (released_earlier _ _) as [[ry y]|]; [auto with steady|].
    apply steady_bind; [auto 10 with steady|]. intros status.
    apply steady_if; [auto 10 with steady|exact IH].
Qed.

#[export] Hint Resolve steady_check_candidates : steady.

(** A retried call is first made once; what follows only adds requests. *)
Lemma retry_loop_first {A} classes n (call : M A) st :
  steady call ->
  grows (snd (call st)) (snd (retry_loop classes n call st)).
Proof.
  intros Hc.
  assert (Hh : forall e, steady
            (if retry_if_exception_type classes e
             then match n with
                  | O => raise e
                  | S fewer =>
                      logger WARNING (LogRetrying e) ;;; sleep ;;;
                      retry_loop classes fewer call
                  end
             else @raise A e)).
  { intros e. apply steady_if; [|auto with steady].
    destruct n; [auto with steady|].
    apply steady_bind; [auto with steady|]. intros _.
    apply steady_bind; [auto with steady|]. intros _.
    now apply steady_retry_loop. }
  destruct n; simpl; unfold try_except;
    destruct (call st) as [[a|e] st']; simpl;
    try apply grows_refl; apply (Hh e).
Qed.


Lemma sends_grows {A} req (m : M A) st st' :
  sends req m -> grows (snd (m st)) st' ->
  exists more, requests st' = requests st ++ req :: more.
Proof.
  intros Hs [m2 H2]. destruct (Hs st) as [m1 H1].
  exists (m1 ++ m2). rewrite H2, H1. now rewrite <- app_assoc.
Qed.

Lemma sends_bind_l {A B} req (m : M A) (k : A -> M B) :
  sends req m -> (forall a, steady (k a)) -> sends req (bind m k).
Proof.
  intros Hs Hk st. apply (sends_grows req m st); [exact Hs|].
  unfold bind. destruct (m st) as [[a|e] st']; simpl;
    [apply Hk|apply grows_refl].
Qed.

Lemma sends_bind_r {A B} req (m : M A) (k : A -> M B) :
  quiet m -> (forall a, sends req (k a)) -> sends req (bind m k).
Proof.
  intros Hq Hk st. destruct (Hq st) as (a & st' & Hm & Hr).
  rewrite (bind_return _ _ _ _ _ Hm), <- Hr. apply Hk.
Qed.

Lemma sends_try {A} req (m : M A) (h : exn -> M A) :
  sends req m -> (forall e, steady (h e)) -> sends req (try_except m h).
Proof.
  intros Hs Hh st. apply (sends_grows req m st); [exact Hs|].
  unfold try_except. destruct (m st) as [[a|e] st']; simpl;
    [apply grows_refl|apply Hh].
Qed.

Lemma sends_retry {A} req classes n (call : M A) :
  sends req call -> steady call -> sends req (retry_loop classes n call).
Proof.
  intros Hs Hc st. apply (sends_grows req call st); [exact Hs|].
  now apply retry_loop_first.
Qed.

Lemma sends_http_get env req : sends req (http_get env req).
Proof.
  intros st. exists []. unfold http_get. now destruct (tmdb env _ req).
Qed.

Lemma quiet_logger lvl msg : quiet (logger lvl msg).
Proof. intros st. eexists _, _. split; reflexivity. Qed.

(** The first thing [search_tmdb] does is to send the search request. *)
Lemma search_tmdb_sends env title api_key :
  sends (SearchMovie api_key title) (search_tmdb env title api_key).
Proof.
  apply sends_retry; [|auto with steady].
  apply sends_bind_l; [apply sends_http_get|auto with steady].
Qed.

Lemma search_and_decide_sends env iso title api_key yc cache :
  sends (SearchMovie api_key title)
        (search_and_decide env iso title api_key yc cache).
Proof.
  unfold search_and_decide.
  apply sends_bind_r; [apply quiet_logger|]. intros _.
  apply sends_bind_l.
  - apply sends_try; [|auto with steady].
    apply sends_bind_l; [apply search_tmdb_sends|auto with steady].
  - intros [e|[|r rs]]; auto 10 with steady.
Qed.

End MonadFacts.

(** * ProductionCache: the claims *)

Section CacheClaims.
Import MonadFacts.
Variable env : Env.
Variable fromisoformat : string -> option datetime.
Variable isoformat : Z -> string.


Lemma dict_truthy_nonempty (entry : Entry) :
  entry <> ∅ -> dict_truthy entry = true.
Proof.
  intros H. unfold dict_truthy. now rewrite bool_decide_eq_false_2.
Qed.

Lemma lookup_nonempty (entry : Entry) key v :
  entry !! key = Some v -> entry <> ∅.
Proof. intros H ->. now rewrite lookup_empty in H. Qed.

(** A cache hit ends [check_if_produced] at once. *)
Lemma check_if_produced_hit title api_key yc c cache entry st st0 st1 :
  open_cache c st = (Return cache, st0) ->
  get_cached_result env fromisoformat title cache st0
    = (Return (Some entry), st1) ->
  entry <> ∅ ->
  check_if_produced env fromisoformat isoformat title api_key yc c st
  = (Return (cached_decision entry, cache), st1).
Proof.
  intros Ho Hg He. unfold check_if_produced.
  rewrite (bind_return _ _ _ _ _ Ho), (bind_return _ _ _ _ _ Hg).
  now rewrite (dict_truthy_nonempty entry He).
Qed.

(** A cache miss hands over to the search. *)
Lemma check_if_produced_miss title api_key yc c cache cached st st0 st1 :
  open_cache c st = (Return cache, st0) ->
  get_cached_result env fromisoformat title cache st0
    = (Return cached, st1) ->
  cached = None \/ cached = Some ∅ ->
  check_if_produced env fromisoformat isoformat title api_key yc c st
  = search_and_decide env isoformat title api_key yc cache st1.
Proof.
  intros Ho Hg Hc. unfold check_if_produced.
  rewrite (bind_return _ _ _ _ _ Ho), (bind_return _ _ _ _ _ Hg).
  destruct Hc as [->| ->]; [reflexivity|].
  unfold dict_truthy. now rewrite bool_decide_eq_true_2.
Qed.

Lemma open_cache_requests c st cache st0 :
  open_cache c st = (Return cache, st0) -> requests st0 = requests st.
Proof.
  destruct c as [c|]; simpl.
  - now intros [= _ <-].
  - unfold load_cache, bind, read_cache_file.
    destruct (cache_file st); simpl; try discriminate; now intros [= _ <-].
Qed.

Lemma open_cache_ticks c st cache st0 :
  open_cache c st = (Return cache, st0) -> ticks st0 = ticks st.
Proof.
  destruct c as [c|]; simpl.
  - now intros [= _ <-].
  - unfold load_cache, bind, read_cache_file.
    destruct (cache_file st); simpl; try discriminate; now intros [= _ <-].
Qed.

End CacheClaims.

(** C10 (refuted as stated): the entry cached for ["juno"] is the empty
    dict.  It has no ["checked_at"] and the lookup returns it, without
    looking at the clock; but [check_if_produced] tests [if cached:],
    which an empty dict fails, and goes on to send the search request. *)
Lemma empty_entry_is_searched_again :
  let cache := Sample.cache_of "juno" ∅ in
  let env := Sample.world (timedelta_days 400) Sample.empty_tmdb Missing in
  let run := check_if_produced env Sample.fromisoformat Sample.isoformat
               "Juno" "key" None (Some cache) (initial_state Missing) in
  entries cache !! normalize_title "Juno" = Some ∅
  /\ truthy (dict_get (∅ : Entry) "checked_at") = false
  /\ get_cached_result env Sample.fromisoformat "Juno" cache
                       (initial_state Missing)
     = (Return (Some ∅), initial_state Missing)
  /\ requests (snd run) = [SearchMovie "key" "Juno"].
Proof. vm_compute. repeat split. Qed.

(** C10 (amended): a cache entry whose ["checked_at"] is absent or empty
    (or otherwise false) is returned by the lookup without looking at the
    clock, whatever its age; when the entry is a non-empty dict,
    [check_if_produced] then answers from it and sends no request. *)
Theorem cache_entry_without_timestamp_never_expires
    (env : Env) (fromisoformat : string -> option datetime)
    (isoformat : Z -> string)
    (title api_key : string) (year_context : option Z)
    (c : option Cache) (cache : Cache) (entry : Entry) (st st0 : State) :
  open_cache c st = (Return cache, st0) ->
  entries cache !! normalize_title title = Some entry ->
  truthy (dict_get entry "checked_at") = false ->
  get_cached_result env fromisoformat title cache st0
  = (Return (Some entry), st0)
  /\ (entry <> ∅ ->
      check_if_produced env fromisoformat isoformat title api_key
                        year_context c st
      = (Return (cached_decision entry, cache), st0)
      /\ requests st0 = requests st /\ ticks st0 = ticks st).
Proof.
  intros Ho Hk Ht.
  assert (Hg : get_cached_result env fromisoformat title cache st0
               = (Return (Some entry), st0)).
  { unfold get_cached_result. now rewrite Hk, Ht. }
  split; [exact Hg|]. intros He. split; [|split].
  - now apply (check_if_produced_hit env fromisoformat isoformat
                 title api_key year_context c cache entry st st0 st0).
  - eapply open_cache_requests, Ho.
  - eapply open_cache_ticks, Ho.
Qed.


Lemma cache_entry_without_timestamp_never_expires_witness :
  let entry : Entry := {[ "is_produced" := VBool true ]} in
  let cache := Sample.cache_of "juno" entry in
  let env := Sample.world (timedelta_days 400) Sample.unreachable_tmdb Missing in
  check_if_produced env Sample.fromisoformat Sample.isoformat "JUNO" "key"
                    None (Some cache) (initial_state Missing)
  = (Return (cached_decision entry, cache), initial_state Missing).
Proof.
  intros entry cache env.
  refine (proj1 (proj2 (cache_entry_without_timestamp_never_expires
            env Sample.fromisoformat Sample.isoformat "JUNO" "key" None
            (Some cache) cache entry (initial_state Missing)
            (initial_state Missing) eq_refl _ _) _)).
  - reflexivity.
  - reflexivity.
  - discriminate.
Defined.

(** C6: for an entry stamped with a ["checked_at"] that
    [fromisoformat] reads as a naive datetime, as [save_cache] and the
    entries write it, the lookup returns the entry exactly when
    [now - checked_at] is at most 30 days.  Within that time (29 days,
    say) [check_if_produced] answers with the stored verdict and sends no
    request; later (31 days, say) the lookup answers [None] and
    [check_if_produced] sends a fresh search request. *)
Theorem cache_entry_fresh_for_thirty_days
    (env : Env) (fromisoformat : string -> option datetime)
    (isoformat : Z -> string)
    (title api_key : string) (year_context : option Z)
    (c : option Cache) (cache : Cache) (entry : Entry)
    (stamp : string) (checked_date : Z) (st st0 : State) :
  open_cache c st = (Return cache, st0) ->
  entries cache !! normalize_title title = Some entry ->
  entry !! "checked_at" = Some (VStr stamp) ->
  stamp <> "" ->
  fromisoformat stamp = Some (Naive checked_date) ->
  let age := (clock env (ticks st0) - checked_date)%Z in
  ((age <= timedelta_days 30)%Z ->
     exists st1,
       get_cached_result env fromisoformat title cache st0
       = (Return (Some entry), st1)
       /\ check_if_produced env fromisoformat isoformat title api_key
                            year_context c st
          = (Return (cached_decision entry, cache), st1)
       /\ requests st1 = requests st)
  /\ ((timedelta_days 30 < age)%Z ->
        exists st1,
          get_cached_result env fromisoformat title cache st0
          = (Return None, st1)
          /\ exists more,
               requests (snd (check_if_produced env fromisoformat isoformat
                                title api_key year_context c st))
               = requests st ++ SearchMovie api_key title :: more).
Proof.
  intros Ho Hk Hc Hs Hf age.
  pose proof (open_cache_requests c st cache st0 Ho) as Hr.
  assert (Hstep : get_cached_result env fromisoformat title cache st0
            = (t <- now env ;;
               if (t - checked_date >? timedelta_days CACHE_EXPIRY_DAYS)%Z
               then logger DEBUG (LogCacheExpired title) ;;; ret None
               else ret (Some entry)) st0).
  { unfold get_cached_result, dict_get. rewrite Hk, Hc. simpl.
    apply MatchFacts.is_empty_false in Hs. rewrite Hs. simpl.
    now rewrite Hf. }
  unfold bind, now in Hstep. fold age in Hstep.
  change (timedelta_days CACHE_EXPIRY_DAYS) with (timedelta_days 30) in Hstep.
  split; intros Hage.
  - destruct (Z.gtb_spec age (timedelta_days 30)) as [Hgt|_]; [lia|].
    eexists. split; [exact Hstep|]. split; [|exact Hr].
    eapply check_if_produced_hit; eauto using lookup_nonempty.
  - destruct (Z.gtb_spec age (timedelta_days 30)) as [_|Hle]; [|lia].
    simpl in Hstep. eexists. split; [exact Hstep|].
    erewrite check_if_produced_miss; eauto.
    destruct (MonadFacts.search_and_decide_sends env isoformat title api_key
                year_context cache
                (snd (logger DEBUG (LogCacheExpired title)
                        (snd (now env st0))))) as [more Hm].
    exists more. simpl in Hm |- *. rewrite Hm. now rewrite Hr.
Qed.

Lemma cache_entry_fresh_for_thirty_days_witness :
  let entry : Entry :=
    {[ "is_produced" := VBool true; "checked_at" := VStr "2024-03-01T09:00:00" ]} in
  let cache := Sample.cache_of "juno" entry in
  let young := Sample.world (timedelta_days 29) Sample.unreachable_tmdb Missing in
  let old := Sample.world (timedelta_days 31) Sample.unreachable_tmdb Missing in
  (exists st1,
     check_if_produced young Sample.fromisoformat Sample.isoformat "Juno"
                       "key" None (Some cache) (initial_state Missing)
     = (Return (cached_decision entry, cache), st1)
     /\ requests st1 = [])
  /\ (exists more,
        requests (snd (check_if_produced old Sample.fromisoformat
                         Sample.isoformat "Juno" "key" None (Some cache)
                         (initial_state Missing)))
        = SearchMovie "key" "Juno" :: more).
Proof.
  intros entry cache young old. split.
  - destruct (proj1 (cache_entry_fresh_for_thirty_days
        young Sample.fromisoformat Sample.isoformat "Juno" "key" None
        (Some cache) cache entry "2024-03-01T09:00:00" 0%Z
        (initial_state Missing) (initial_state Missing)
        eq_refl eq_refl eq_refl ltac:(discriminate) eq_refl))
      as (st1 & _ & H & Hr); [vm_compute; discriminate|].
    exists st1. now split.
  - destruct (proj2 (cache_entry_fresh_for_thirty_days
        old Sample.fromisoformat Sample.isoformat "Juno" "key" None
        (Some cache) cache entry "2024-03-01T09:00:00" 0%Z
        (initial_state Missing) (initial_state Missing)
        eq_refl eq_refl eq_refl ltac:(discriminate) eq_refl))
      as (st1 & _ & more & H); [vm_compute; reflexivity|].
    now exists more.
Defined.

(** * ProductionDecisionEngine: the claims *)

Module EngineFacts.
Import MonadFacts.

(** [store] returns the cache with the entry under the normalised title,
    unless the creation of the directory or [json.dump] raises. *)
Lemma store_outcome env iso title entry cache st :
  (exists cache' st',
     store env iso title entry cache st = (Return cache', st')
     /\ entries cache' = <[normalize_title title := entry]> (entries cache)
     /\ version cache' = version cache
     /\ requests st' = requests st
     /\ (cache_write env = Written -> cache_file st' = Json cache')
     /\ exists extra, log st' = log st ++ extra)
  \/ (exists e st',
        store env iso title entry cache st = (Raise e, st')
        /\ save_raises env e
        /\ requests st' = requests st).
Proof.
  unfold store, save_cache, save_raises, mkdir_cache_dir.
  destruct (cache_dir_error env) as [e|].
  { right. exists e, st. split; [reflexivity|]. split; [now left|reflexivity]. }
  unfold bind, now, ret. simpl.
  destruct (cache_write env) as [| | |e] eqn:W; simpl.
  4:{ right. eexists e, _. split; [reflexivity|].
      split; [now right|reflexivity]. }
  all: left; eexists _, _; (split; [reflexivity|]); simpl;
    (repeat split; try congruence).
  - exists []. now rewrite app_nil_r.
  - now eexists.
  - now eexists.
Qed.

Lemma store_returns env iso title entry cache st :
  cache_dir_error env = None ->
  (forall e, cache_write env <> DumpRaises e) ->
  exists cache' st',
    store env iso title entry cache st = (Return cache', st')
    /\ entries cache' = <[normalize_title title := entry]> (entries cache)
    /\ requests st' = requests st
    /\ (cache_write env = Written -> cache_file st' = Json cache')
    /\ exists extra, log st' = log st ++ extra.
Proof.
  intros Hdir Hdump.
  destruct (store_outcome env iso title entry cache st)
    as [(cache' & st' & H & He & _ & Hr & Hw & Hl)
       |(e & st' & _ & [Hs|[_ Hs]] & _)].
  - now exists cache', st'.
  - congruence.
  - now destruct (Hdump e).
Qed.

Lemma search_and_decide_after_search env iso title api_key yc cache st results st2 :
  search_tmdb env title api_key (snd (logger INFO (LogSearching title) st))
    = (Return results, st2) ->
  search_and_decide env iso title api_key yc cache st
  = match results with
    | [] =>
        (t <- now env ;;
         let entry := negative_entry (iso t) "high" None in
         cache <- store env iso title entry cache ;;
         ret ((VBool false, ReasonNoFilms, entry), cache)) st2
    | _ => check_candidates env iso title api_key yc (length results)
                            results cache st2
    end.
Proof.
  intros Hs. unfold search_and_decide.
  unfold bind at 1. simpl in Hs |- *.
  unfold bind at 1, try_except. unfold bind at 1. rewrite Hs.
  cbn [ret]. now destruct results.
Qed.



End EngineFacts.



Module YearFacts.
Import PyStr.


Lemma before_hyphen_free t : hyphen_free (PyInt.before_hyphen t).
Proof.
  induction t as [|c r IH]; simpl; [constructor|].
  destruct (PyChar.eqb c "-") eqn:E; [constructor|].
  constructor; [|exact IH]. intros ->. discriminate.
Qed.

Lemma lskip_free t : hyphen_free t -> hyphen_free (PyInt.lskip t).
Proof.
  induction 1 as [|c r Hc Hr IH]; simpl; [constructor|].
  destruct (PyInt.isspace c); [exact IH|now constructor].
Qed.

Lemma rev_free t : hyphen_free t -> hyphen_free (rev t).
Proof. apply Forall_rev. Qed.

Lemma digit_value_nonneg c : (0 <= PyInt.digit_value c)%Z.
Proof. unfold PyInt.digit_value. lia. Qed.

Lemma digits_nonneg_bounded n : forall t acc v,
  length t <= n ->
  (0 <= acc)%Z -> PyInt.digits acc t = Some v -> (0 <= v)%Z.
Proof.
  induction n as [|n IH]; intros t acc v Hlen Hacc;
    destruct t as [|d r]; simpl in *; try discriminate; [lia|].
  destruct (PyChar.isdigit d); [|discriminate].
  pose proof (digit_value_nonneg d).
  destruct r as [|c r']; [intros [= <-]; lia|].
  destruct (Ascii.eqb_spec c "_") as [->|Hne].
  - apply IH; [simpl in *; lia|lia].
  - intros H'.
    apply (IH (c :: r') (acc * 10 + PyInt.digit_value d)%Z);
      [simpl in *; lia|lia|].
    revert H'. destruct c as [[] [] [] [] [] [] [] []]; try exact (fun h => h).
    now contradiction Hne.
Qed.

Lemma digits_nonneg t acc v :
  (0 <= acc)%Z -> PyInt.digits acc t = Some v -> (0 <= v)%Z.
Proof. now apply (digits_nonneg_bounded (length t)). Qed.

(** The year read from a release date is never negative: the text before
    the first hyphen carries no minus sign. *)
Lemma release_year_nonneg release_date y :
  PyInt.release_year release_date = Some y -> (0 <= y)%Z.
Proof.
  unfold PyInt.release_year, PyInt.int.
  pose proof (lskip_free _ (rev_free _ (lskip_free _ (rev_free _
                (before_hyphen_free (of_string release_date)))))) as Hf.
  destruct (PyInt.lskip _) as [|c r]; [discriminate|].
  inversion Hf as [|? ? Hc _]; subst.
  intros H. 
  assert (Hd : PyInt.digits 0 r = Some y \/ PyInt.digits 0 (c :: r) = Some y).
  { revert H. destruct c as [[] [] [] [] [] [] [] []]; auto.
    now contradiction Hc. }
  destruct Hd as [Hd|Hd]; eapply digits_nonneg; eauto; lia.
Qed.

Lemma release_year_of_empty : PyInt.release_year "" = None.
Proof. reflexivity. Qed.

Lemma released_earlier_when release_date release_year y :
  PyInt.release_year release_date = Some release_year ->
  (release_year < y)%Z ->
  released_earlier (Some y) release_date = Some (release_year, y).
Proof.
  intros Hy Hlt. pose proof (release_year_nonneg _ _ Hy) as H0.
  unfold released_earlier, year_given.
  destruct (Z.eqb_spec y 0) as [->|_]; [lia|].
  destruct release_date as [|a s]; [discriminate|]. cbn [is_empty].
  rewrite Hy. destruct (Z.ltb_spec release_year y); [reflexivity|lia].
Qed.

End YearFacts.

Module LoopFacts.
Import MonadFacts.





End LoopFacts.



(** C3 (refuted as stated): the only candidate is ["Juno"], released
    2007-12-05; every details request fails.  [check_if_produced] logs the
    failure and answers [True]. *)
Lemma failed_details_yields_produced :
  let env := Sample.world 0 (Sample.details_down_tmdb [Sample.juno]) Missing in
  let run := check_if_produced env Sample.fromisoformat Sample.isoformat
               "Juno" "key" None (Some empty_cache) (initial_state Missing) in
  verdict run = Some (VBool true)
  /\ In (WARNING, LogDetailsFailed "Juno" Sample.connect_error) (log (snd run)).
Proof. vm_compute. split; [reflexivity|]. auto 10. Qed.

(** C3 (amended): when the details of a matching candidate that passed the
    year test cannot be fetched, the failure is logged as a warning; a
    candidate without release date is then left for the next one, and a
    candidate with a release date is taken as ["Released"]: provided the
    cache can be saved (its directory can be created, and [json.dump]
    raises nothing but an [IOError]), the decision is [True], stored with
    that status. *)
Theorem failed_details_falls_back_on_release_date
    (env : Env) (isoformat : Z -> string)
    (title api_key : string) (year_context : option Z) (found : nat)
    (result : SearchResult) (rest : list SearchResult) (cache : Cache)
    (e : exn) (st st1 : State) :
  is_title_match title (sr_title result) DEFAULT_THRESHOLD = true ->
  released_earlier year_context (sr_release_date result) = None ->
  get_movie_details env (sr_id result) api_key st = (Raise e, st1) ->
  let st2 := snd (logger WARNING (LogDetailsFailed (sr_title result) e) st1) in
  (sr_release_date result = "" ->
     check_candidates env isoformat title api_key year_context found
                      (result :: rest) cache st
     = check_candidates env isoformat title api_key year_context found rest
                        cache st2)
  /\ (sr_release_date result <> "" ->
        cache_dir_error env = None ->
        (forall e', cache_write env <> DumpRaises e') ->
        let entry := positive_entry (sr_id result) (sr_title result)
                       (sr_release_date result) "Released"
                       (isoformat (clock env (ticks st2))) in
        exists cache' st3,
          check_candidates env isoformat title api_key year_context found
                           (result :: rest) cache st
          = (Return ((VBool true,
                      ReasonProduced (sr_title result)
                                     (sr_release_date result) "Released",
                      entry), cache'), st3)
          /\ entries cache' !! normalize_title title = Some entry
          /\ In (WARNING, LogDetailsFailed (sr_title result) e) (log st3)).
Proof.
  intros Hm Hy Hd st2.
  assert (Hstep : forall status,
    status = (if is_empty (sr_release_date result)
              then "Unknown" else "Released") ->
    check_candidates env isoformat title api_key year_context found
                     (result :: rest) cache st
    = (if existsb (String.eqb status) PRODUCED_STATUSES then
         t <- now env ;;
         let entry := positive_entry (sr_id result) (sr_title result)
                        (sr_release_date result) status (isoformat t) in
         cache <- store env isoformat title entry cache ;;
         ret ((VBool true,
               ReasonProduced (sr_title result)
                 (if is_empty (sr_release_date result) then "N/A"
                  else sr_release_date result) status,
               entry), cache)
       else check_candidates env isoformat title api_key year_context found
                             rest cache) st2).
  { intros status ->. cbn [check_candidates]. rewrite Hm, Hy. cbn [negb].
    unfold bind at 1, try_except. unfold bind at 1. now rewrite Hd. }
  split.
  - intros Hempty. rewrite (Hstep "Unknown"); [reflexivity|].
    now rewrite Hempty.
  - intros Hdate Hdir Hdump entry. apply MatchFacts.is_empty_false in Hdate.
    rewrite (Hstep "Released") by now rewrite Hdate.
    cbn [existsb PRODUCED_STATUSES]. 
    change (("Released" =? "Released")%string) with true. cbn [orb].
    rewrite Hdate. unfold bind at 1. cbn [now]. cbv zeta. fold entry.
    match goal with
    | |- context [bind _ _ ?s] =>
        destruct (EngineFacts.store_returns env isoformat title entry cache s
                    Hdir Hdump)
          as (cache' & st3 & Hst & He & Hr & Hw & extra & Hlog)
    end.
    exists cache', st3. rewrite (MonadFacts.bind_return _ _ _ _ _ Hst).
    split; [reflexivity|]. split; [rewrite He; apply lookup_insert_eq|].
    rewrite Hlog. apply in_or_app. left. cbn [log logger snd].
    apply in_or_app. right. now left.
Qed.

Lemma failed_details_falls_back_on_release_date_witness :
  let env := Sample.world 0 (Sample.details_down_tmdb [Sample.juno]) Missing in
  let st := snd (search_tmdb env "Juno" "key" (initial_state Missing)) in
  exists cache' st3,
    check_candidates env Sample.isoformat "Juno" "key" (Some 2006%Z) 1
                     [Sample.juno] empty_cache st
    = (Return ((VBool true, ReasonProduced "Juno" "2007-12-05" "Released",
                positive_entry (Some 7326%Z) "Juno" "2007-12-05" "Released"
                               "2024-03-01T09:00:00"),
               cache'), st3)
    /\ In (WARNING, LogDetailsFailed "Juno" Sample.connect_error) (log st3).
Proof.
  intros env st.
  destruct (proj2 (failed_details_falls_back_on_release_date
              env Sample.isoformat "Juno" "key" (Some 2006%Z) 1 Sample.juno []
              empty_cache Sample.connect_error st
              (snd (get_movie_details env (Some 7326%Z) "key" st))
              eq_refl eq_refl eq_refl))
    as (cache' & st3 & Hrun & _ & Hlog);
    [discriminate|reflexivity|intros e; discriminate|].
  exists cache', st3. now split.
Defined.

(** * ExternalLookupClient: retries *)

Module RetryFacts.
Import MonadFacts.


(** An answer ends the call, whichever attempt it is. *)
Lemma search_first_answer env title api_key st body :
  tmdb env (length (requests st)) (SearchMovie api_key title) = Answers body ->
  search_tmdb env title api_key st
  = (Return (body_results body), sent (SearchMovie api_key title) st).
Proof.
  intros H. unfold search_tmdb, with_retry. cbn [retry_loop Nat.sub STOP_AFTER_ATTEMPT].
  unfold try_except, bind, http_get. now rewrite H.
Qed.

(** An exception outside [RETRYABLE_EXCEPTIONS] is raised at once. *)
Lemma search_unlisted_raises env title api_key st e :
  tmdb env (length (requests st)) (SearchMovie api_key title) = Fails e ->
  listed_class e = false ->
  search_tmdb env title api_key st
  = (Raise e, sent (SearchMovie api_key title) st).
Proof.
  intros H Hl. unfold search_tmdb, with_retry.
  cbn [retry_loop Nat.sub STOP_AFTER_ATTEMPT].
  unfold try_except at 1, bind at 1, http_get at 1. rewrite H.
  unfold listed_class in Hl. now rewrite Hl.
Qed.

(** Three listed failures in a row: three requests, two waits, and the
    last exception reaches the caller. *)
Lemma search_gives_up_after_three env title api_key st e1 e2 e3 :
  let req := SearchMovie api_key title in
  let n := length (requests st) in
  tmdb env n req = Fails e1 -> listed_class e1 = true ->
  tmdb env (S n) req = Fails e2 -> listed_class e2 = true ->
  tmdb env (S (S n)) req = Fails e3 -> listed_class e3 = true ->
  search_tmdb env title api_key st
  = (Raise e3, sent req (waited e2 (sent req (waited e1 (sent req st))))).
Proof.
  intros req n H1 L1 H2 L2 H3 L3. unfold listed_class in *.
  unfold search_tmdb, with_retry.
  cbn [retry_loop Nat.sub STOP_AFTER_ATTEMPT].
  unfold try_except at 1, bind at 1, http_get at 1. fold req n. rewrite H1, L1.
  unfold bind at 1. cbn [logger]. unfold bind at 1. cbn [sleep].
  unfold try_except at 1, bind at 1, http_get at 1. cbn [requests].
  rewrite length_app, Nat.add_1_r. fold req n. rewrite H2, L2.
  unfold bind at 1. cbn [logger]. unfold bind at 1. cbn [sleep].
  unfold try_except at 1, bind at 1, http_get at 1. cbn [requests].
  rewrite length_app, Nat.add_1_r, length_app, Nat.add_1_r.
  fold req n. rewrite H3, L3. reflexivity.
Qed.

(** Every status that [raise_for_status] raises for is listed. *)
Lemma every_status_error_listed status :
  listed_class (http_status_error status) = true.
Proof. reflexivity. Qed.

End RetryFacts.

(** C9 (the code departs from the claim): TMDB answers every request with
    HTTP 401, a status [is_retryable_http_status] calls permanent.
    [search_tmdb] nevertheless sends the request three times, waiting
    twice, before the error reaches its caller; [get_movie_details] does
    the same. *)
Theorem unauthorized_search_is_retried :
  let env := Sample.world 0 Sample.unauthorized_tmdb Missing in
  let search := SearchMovie "bad-key" "Juno" in
  let details := MovieDetails "bad-key" (Some 7326%Z) in
  is_retryable_http_status 401 = false
  /\ (exists st,
        search_tmdb env "Juno" "bad-key" (initial_state Missing)
        = (Raise (http_status_error 401), st)
        /\ requests st = [search; search; search] /\ naps st = 2)
  /\ (exists st,
        get_movie_details env (Some 7326%Z) "bad-key" (initial_state Missing)
        = (Raise (http_status_error 401), st)
        /\ requests st = [details; details; details] /\ naps st = 2).
Proof.
  intros env search details. split; [reflexivity|].
  split; eexists; (split; [reflexivity|]); split; reflexivity.
Qed.

(** * The entry point: the claims *)

Module MainFacts.
Import MonadFacts.

Lemma listed_In normalized titles :
  listed normalized titles = true
  <-> exists t, In t titles /\ normalize_title t = normalized.
Proof.
  unfold listed. rewrite existsb_exists.
  split; intros (t & Hin & H); exists t; (split; [exact Hin|]);
    now apply String.eqb_eq.
Qed.

(** A failed search makes [check_if_produced] answer [False], with the
    error as reason, and leaves the cache and its file as they were. *)
Lemma search_failure_answers_false env fromiso iso title api_key yc
    c cache cached e st st0 st1 st2 :
  open_cache c st = (Return cache, st0) ->
  get_cached_result env fromiso title cache st0 = (Return cached, st1) ->
  cached = None \/ cached = Some ∅ ->
  search_tmdb env title api_key (snd (logger INFO (LogSearching title) st1))
    = (Raise e, st2) ->
  check_if_produced env fromiso iso title api_key yc c st
  = (Return ((VBool false, ReasonSearchFailed e, error_details e), cache),
     snd (logger ERROR (LogSearchFailed e) st2)).
Proof.
  intros Ho Hg Hmiss Hs.
  rewrite (check_if_produced_miss env fromiso iso title api_key yc c cache
             cached st st0 st1 Ho Hg Hmiss).
  unfold search_and_decide. unfold bind at 1. simpl in Hs |- *.
  unfold bind at 1, try_except. unfold bind at 1. now rewrite Hs.
Qed.

End MainFacts.

(** C2 (the code departs from the claim): TMDB cannot be reached and the
    three attempts of the search fail.  [main] prints the error reason and
    exits with code 0, the code of "not produced", although its exception
    handler and the module documentation give 2 to errors.  No cache entry
    is written: the cache file stays absent. *)
Theorem search_outage_exits_with_zero :
  let env := Sample.world 0 Sample.unreachable_tmdb Missing in
  let args := {| arg_title := "Juno"; arg_year_context := None |} in
  let run := main env Sample.fromisoformat Sample.isoformat args
                  (initial_state Missing) in
  fst run = Return 0%Z
  /\ console (snd run) = [PrintReason (ReasonSearchFailed Sample.connect_error)]
  /\ length (requests (snd run)) = 3
  /\ cache_file (snd run) = Missing
  /\ verdict (check_if_produced env Sample.fromisoformat Sample.isoformat
                "Juno" "key" None None (initial_state Missing))
     = Some (VBool false).
Proof. vm_compute. repeat split. Qed.

(** C1 (refuted as stated): ["Juno"] is in both override lists; [main]
    exits with code 0, "not produced", and not with 1. *)
Lemma listed_in_both_exits_with_zero :
  let both := {| force_analyze := ["Juno"]; force_skip := ["JUNO (2007)"] |} in
  let env := Sample.world 0 Sample.empty_tmdb (Json both) in
  let args := {| arg_title := "juno"; arg_year_context := None |} in
  listed (normalize_title "juno") (force_analyze both) = true
  /\ listed (normalize_title "juno") (force_skip both) = true
  /\ fst (main env Sample.fromisoformat Sample.isoformat args
               (initial_state Missing)) = Return 0%Z
  /\ fst (main env Sample.fromisoformat Sample.isoformat args
               (initial_state Missing)) <> Return 1%Z.
Proof. vm_compute. repeat split. discriminate. Qed.

(** C1 (amended): with an API key configured, a title that is, after
    normalisation, in both [force_analyze] and [force_skip] is decided as
    not produced: [main] prints the force-analyze line and exits with code
    0, without reading the cache or asking TMDB ([force_analyze] is looked
    at first). *)
Theorem force_analyze_takes_precedence
    (env : Env) (fromisoformat : string -> option datetime)
    (isoformat : Z -> string)
    (args : Args) (api_key : string) (overrides : Overrides) (st : State) :
  api_key_env env = Some api_key ->
  api_key <> "" ->
  overrides_file env = Json overrides ->
  (exists t, In t (force_analyze overrides)
             /\ normalize_title t = normalize_title (arg_title args)) ->
  (exists t, In t (force_skip overrides)
             /\ normalize_title t = normalize_title (arg_title args)) ->
  main env fromisoformat isoformat args st
  = (Return 0%Z, snd (print (PrintForceAnalyze (arg_title args)) st)).
Proof.
  intros Hk Hne Ho Ha _. unfold main. rewrite Hk.
  apply MatchFacts.is_empty_false in Hne. rewrite Hne.
  unfold load_overrides. rewrite Ho.
  apply MainFacts.listed_In in Ha.
  unfold bind at 1. cbn [ret]. now rewrite Ha.
Qed.

Lemma force_analyze_takes_precedence_witness :
  let both := {| force_analyze := ["Juno"]; force_skip := ["JUNO (2007)"] |} in
  let env := Sample.world 0 Sample.empty_tmdb (Json both) in
  let args := {| arg_title := "juno"; arg_year_context := None |} in
  main env Sample.fromisoformat Sample.isoformat args (initial_state Missing)
  = (Return 0%Z, snd (print (PrintForceAnalyze "juno") (initial_state Missing))).
Proof.
  intros both env args.
  apply (force_analyze_takes_precedence env Sample.fromisoformat
           Sample.isoformat args "key" both (initial_state Missing)
           eq_refl ltac:(discriminate) eq_refl).
  - exists "Juno". split; [now left|reflexivity].
  - exists "JUNO (2007)". split; [now left|reflexivity].
Defined.

(** * The code on the examples of its documentation *)

Example normalize_juno : normalize_title "JUNO" = "juno".
Proof. reflexivity. Qed.

Example normalize_war :
  normalize_title "CHARLIE WILSON'S WAR" = "charlie wilsons war".
Proof. reflexivity. Qed.

Example normalize_bucket :
  normalize_title "THE BUCKET LIST" = "bucket list"
  /\ normalize_title "bucket-list" = "bucketlist".
Proof. split; reflexivity. Qed.

Example normalize_year : normalize_title "Juno (2007)" = normalize_title "Juno".
Proof. reflexivity. Qed.

Example normalize_aeon : normalize_title "Aeon" = "aeon".
Proof. reflexivity. Qed.

Example ratio_juno_juneau :
  Difflib.ratio (PyStr.of_string "juno") (PyStr.of_string "juneau") = (6 # 10)%Q.
Proof. vm_compute. reflexivity. Qed.

(** The ["Hanna"] run: two candidates, year context 2006. *)
Example hanna_is_produced :
  let hanna := {| sr_title := "Hanna"; sr_release_date := "2011-04-01";
                  sr_id := Some 50456%Z |} in
  let sisters := {| sr_title := "Hannah and Her Sisters";
                    sr_release_date := "1986-02-01"; sr_id := Some 5143%Z |} in
  let env := Sample.world 0 (Sample.tmdb_with [hanna; sisters] "Released")
                          Missing in
  let run := check_if_produced env Sample.fromisoformat Sample.isoformat
               "Hanna" "key" (Some 2006%Z) (Some empty_cache)
               (initial_state Missing) in
  verdict run = Some (VBool true)
  /\ match fst run with
     | Return (decision, _) =>
         reason_of decision = ReasonProduced "Hanna" "2011-04-01" "Released"
         /\ details_of decision !! "title" = Some (VStr "Hanna")
         /\ details_of decision !! "release_date" = Some (VStr "2011-04-01")
     | Raise _ => False
     end.
Proof. vm_compute. repeat split. Qed.

(** With the candidates the other way round, the 1986 film matches by
    containment and is passed over for its year. *)
Example hanna_is_produced_reversed :
  let hanna := {| sr_title := "Hanna"; sr_release_date := "2011-04-01";
                  sr_id := Some 50456%Z |} in
  let sisters := {| sr_title := "Hannah and Her Sisters";
                    sr_release_date := "1986-02-01"; sr_id := Some 5143%Z |} in
  let env := Sample.world 0 (Sample.tmdb_with [sisters; hanna] "Released")
                          Missing in
  let run := check_if_produced env Sample.fromisoformat Sample.isoformat
               "Hanna" "key" (Some 2006%Z) (Some empty_cache)
               (initial_state Missing) in
  is_title_match "Hanna" "Hannah and Her Sisters" DEFAULT_THRESHOLD = true
  /\ verdict run = Some (VBool true)
  /\ requests (snd run)
     = [SearchMovie "key" "Hanna"; MovieDetails "key" (Some 50456%Z)].
Proof. vm_compute. repeat split. Qed.

(** * More on the title normaliser *)

Module ShapeFacts.
Import PyStr Shape NormalizeFacts StripFacts.

Lemma isword_lower c : PyChar.isword (PyChar.lower c) = PyChar.isword c.
Proof. destruct c as [[] [] [] [] [] [] [] []]; reflexivity. Qed.

Lemma isspace_lower c : PyChar.isspace (PyChar.lower c) = PyChar.isspace c.
Proof. destruct c as [[] [] [] [] [] [] [] []]; reflexivity. Qed.

Lemma lstrip_all_space t :
  Forall (fun c => PyChar.isspace c = true) t -> lstrip t = [].
Proof.
  induction 1 as [|c r Hc _ IH]; simpl; [reflexivity|]. now rewrite Hc.
Qed.

Lemma strip_all_space t :
  Forall (fun c => PyChar.isspace c = true) t -> strip t = [].
Proof. intros H. unfold strip. now apply lstrip_all_space, Forall_rstrip. Qed.

Lemma sub_spaces_all_space b t :
  Forall (fun c => PyChar.isspace c = true) t ->
  Forall (fun c => PyChar.isspace c = true) (Regex.sub_spaces_from b t).
Proof.
  intros H. revert b. induction H as [|c r Hc _ IH]; intros b; simpl.
  - constructor.
  - rewrite Hc. destruct b; [apply IH|]. constructor; [reflexivity|apply IH].
Qed.

Lemma sub_punct_wordless t :
  Forall (fun c => PyChar.isword c = false) t ->
  Forall (fun c => PyChar.isspace c = true) (Regex.sub_punct t).
Proof.
  unfold Regex.sub_punct. induction 1 as [|c r Hc _ IH]; simpl; [constructor|].
  rewrite Hc. simpl. destruct (PyChar.isspace c) eqn:E; [|exact IH].
  now constructor.
Qed.

Lemma lower_wordless t :
  Forall (fun c => PyChar.isword c = false) t ->
  Forall (fun c => PyChar.isword c = false) (lower t).
Proof.
  unfold lower. induction 1; simpl; constructor; auto.
  now rewrite isword_lower.
Qed.

(** A text without any word character normalises to the empty text. *)
Lemma normalize_wordless t :
  Forall (fun c => PyChar.isword c = false) t -> normalize_text t = [].
Proof.
  intros H. rewrite normalize_text_unfold.
  apply strip_all_space, sub_spaces_all_space, Forall_sub_article.
  apply sub_punct_wordless, Forall_sub_year, Forall_strip.
  now apply lower_wordless.
Qed.

Lemma normalize_title_wordless s :
  Forall (fun c => PyChar.isword c = false) (of_string s) ->
  normalize_title s = "".
Proof.
  intros H. unfold normalize_title. now rewrite (normalize_wordless _ H).
Qed.

End ShapeFacts.

(** X1: whatever the title, its normal form consists of blanks and of word
    characters that lower-casing leaves alone (so no upper-case letter, no
    punctuation, no tab or newline), neither starts nor ends with a space,
    and has no two spaces in a row. *)
Theorem normalize_title_shape (title : string) :
  let n := PyStr.of_string (normalize_title title) in
  Forall (fun c => c = " "%char
                   \/ (PyChar.isword c = true /\ PyChar.isspace c = false
                       /\ PyChar.lower c = c)) n
  /\ PyStr.strip n = n
  /\ Shape.single_spaced false n = true.
Proof.
  intros n. subst n. unfold normalize_title.
  rewrite NormalizeFacts.of_to_string.
  set (t := PyStr.of_string title).
  destruct (NormalizeFacts.normalize_stripped t) as [Hl Hr].
  split; [|split].
  - eapply List.Forall_impl; [|apply (NormalizeFacts.normalize_settled t)].
    intros c Hc. cbv beta in Hc.
    destruct (Ascii.eqb_spec c " ") as [->|Hne]; [now left|right].
    unfold Shape.settled in Hc.
    apply orb_true_iff in Hc as [Hc|Hc].
    + apply CharFacts.eqb_eq in Hc. contradiction.
    + apply andb_true_iff in Hc as [Hc Hlow].
      apply andb_true_iff in Hc as [Hsp Hw].
      apply CharFacts.eqb_eq in Hlow. apply negb_true_iff in Hsp.
      now repeat split.
  - now apply StripFacts.strip_fixed.
  - apply NormalizeFacts.normalize_single_spaced.
Qed.

(** X2: a title without any word character (only punctuation and spaces,
    or nothing at all) normalises to the empty string, and
    [is_title_match] then answers [False] against every title, on either
    side and for every threshold. *)
Theorem wordless_title_never_matches (title : string) :
  Forall (fun c => PyChar.isword c = false) (PyStr.of_string title) ->
  normalize_title title = ""
  /\ forall (other : string) (threshold : Q),
       is_title_match title other threshold = false
       /\ is_title_match other title threshold = false.
Proof.
  intros H. pose proof (ShapeFacts.normalize_title_wordless title H) as Hn.
  split; [exact Hn|]. intros other threshold.
  unfold is_title_match. rewrite Hn. simpl. now rewrite orb_true_r.
Qed.

Lemma wordless_title_never_matches_witness :
  normalize_title "?!... (--)" = ""
  /\ is_title_match "?!... (--)" "Juno" DEFAULT_THRESHOLD = false
  /\ is_title_match "Juno" "?!... (--)" DEFAULT_THRESHOLD = false.
Proof.
  destruct (wordless_title_never_matches "?!... (--)") as [Hn Hm].
  - repeat constructor.
  - destruct (Hm "Juno" DEFAULT_THRESHOLD) as [H1 H2]. now repeat split.
Defined.

(** * More on the match evaluator: the similarity never exceeds 1 *)

Module RatioFacts.
Import Difflib DifflibFacts.

Lemma blocks_total_app l1 l2 :
  blocks_total (l1 ++ l2) = blocks_total l1 + blocks_total l2.
Proof.
  unfold blocks_total. induction l1 as [|m l IH]; simpl; [reflexivity|].
  rewrite IH. lia.
Qed.

Lemma queue_span_a_app q1 q2 :
  queue_span_a (q1 ++ q2) = queue_span_a q1 + queue_span_a q2.
Proof.
  induction q1 as [|[[[alo ahi] blo] bhi] q1 IH]; simpl; [reflexivity|].
  rewrite IH. lia.
Qed.

Lemma queue_span_b_app q1 q2 :
  queue_span_b (q1 ++ q2) = queue_span_b q1 + queue_span_b q2.
Proof.
  induction q1 as [|[[[alo ahi] blo] bhi] q1 IH]; simpl; [reflexivity|].
  rewrite IH. lia.
Qed.

Lemma append_empty (s : string) : (s ++ "")%string = s.
Proof.
  induction s as [|c s IH]; [reflexivity|].
  change (String c (s ++ "")%string = String c s). now f_equal.
Qed.

Section Totals.
Variables a b : PyStr.text.

(** The blocks the loop finds fit, side by side, into the ranges still
    queued: their sizes add up to no more than the positions spanned in
    [a], and in [b]. *)
Lemma matching_loop_total fuel : forall queue blocks,
  Forall range_ordered queue ->
  blocks_total (fst (matching_loop a b fuel queue blocks))
  <= blocks_total blocks + queue_span_a queue
  /\ blocks_total (fst (matching_loop a b fuel queue blocks))
     <= blocks_total blocks + queue_span_b queue.
Proof.
  induction fuel as [|fuel IH]; intros queue blocks Hq.
  - destruct queue as [|[[[alo ahi] blo] bhi] q]; simpl; lia.
  - destruct queue as [|[[[alo ahi] blo] bhi] q]; [simpl; lia|].
    cbn [matching_loop]. inversion Hq as [|? ? Hr Hq']; subst.
    destruct Hr as [Ha Hb].
    pose proof (find_longest_match_within a b alo ahi blo bhi Ha Hb) as Hm.
    destruct (find_longest_match a b alo ahi blo bhi) as [[i j] k].
    unfold block_within in Hm. cbn [queue_span_a queue_span_b].
    destruct (Nat.eqb_spec k 0) as [->|Hk].
    { destruct (IH q blocks Hq'). lia. }
    match goal with
    | |- context [matching_loop a b fuel ?q' ?bl] =>
        destruct (IH q' bl) as [H1 H2]
    end.
    { apply Forall_app. split; [|apply Forall_app; split; [|exact Hq']].
      - destruct (Nat.ltb_spec (i + k) ahi); cbn [andb];
          [destruct (Nat.ltb_spec (j + k) bhi)|]; repeat constructor; lia.
      - destruct (Nat.ltb_spec alo i); cbn [andb];
          [destruct (Nat.ltb_spec blo j)|]; repeat constructor; lia. }
    rewrite blocks_total_app in H1, H2.
    rewrite !queue_span_a_app in H1. rewrite !queue_span_b_app in H2.
    change (blocks_total [(i, j, k)]) with (k + 0) in H1, H2.
    match type of H1 with
    | context [queue_span_a ?r + (queue_span_a ?l + _)] =>
        assert (queue_span_a r <= ahi - (i + k))
          by (destruct ((i + k <? ahi) && (j + k <? bhi)); simpl; lia);
        assert (queue_span_a l <= i - alo)
          by (destruct ((alo <? i) && (blo <? j)); simpl; lia);
        assert (queue_span_b r <= bhi - (j + k))
          by (destruct ((i + k <? ahi) && (j + k <? bhi)); simpl; lia);
        assert (queue_span_b l <= j - blo)
          by (destruct ((alo <? i) && (blo <? j)); simpl; lia);
        generalize dependent (queue_span_a r);
        generalize dependent (queue_span_a l);
        generalize dependent (queue_span_b r);
        generalize dependent (queue_span_b l)
    end.
    intros. split; lia.
Qed.

Lemma matches_bounded :
  matches a b <= length a /\ matches a b <= length b.
Proof.
  unfold matches, get_matching_blocks.
  destruct (matching_loop_total (matching_fuel a)
              [(0, length a, 0, length b)] []) as [H1 H2].
  { repeat constructor; lia. }
  unfold blocks_total in H1, H2. simpl in H1, H2. lia.
Qed.

(** [ratio()] lies between 0 and 1. *)
Lemma ratio_bounds : (0 <= ratio a b)%Q /\ (ratio a b <= 1)%Q.
Proof.
  unfold ratio. destruct matches_bounded as [Ha Hb].
  destruct (length a + length b) as [|n] eqn:E.
  - split; unfold Qle; simpl; lia.
  - split; unfold Qle; simpl; [lia|].
    assert (Hpos : Z.pos (Pos.of_nat (S n)) = Z.of_nat (S n)).
    { rewrite <- (Nat2Pos.id (S n)) at 2 by discriminate.
      now rewrite positive_nat_Z. }
    rewrite Hpos. lia.
Qed.

End Totals.
End RatioFacts.

(** X3: the similarity ratio lies between 0 and 1, so the threshold has
    two edges.  With a threshold above 1 the fuzzy rule never fires:
    two titles match exactly when their normal forms are non-empty and
    one occurs in the other.  With a threshold of 0 or less, any two
    titles with non-empty normal forms match. *)
Theorem is_title_match_threshold_edges (a b : string) (threshold : Q) :
  ((1 < threshold)%Q ->
     (is_title_match a b threshold = true
      <-> normalize_title a <> "" /\ normalize_title b <> ""
          /\ (occurs_in (normalize_title a) (normalize_title b)
              \/ occurs_in (normalize_title b) (normalize_title a))))
  /\ ((threshold <= 0)%Q ->
        normalize_title a <> "" -> normalize_title b <> "" ->
        is_title_match a b threshold = true).
Proof.
  pose proof (RatioFacts.ratio_bounds (PyStr.of_string (normalize_title a))
                (PyStr.of_string (normalize_title b))) as [Hlo Hhi].
  unfold is_title_match. split.
  - intros Hth.
    destruct (is_empty (normalize_title a)) eqn:Ea.
    { apply MatchFacts.is_empty_true in Ea. simpl.
      split; [discriminate|]. now intros [H _]. }
    destruct (is_empty (normalize_title b)) eqn:Eb.
    { apply MatchFacts.is_empty_true in Eb. simpl.
      split; [discriminate|]. now intros (_ & H & _). }
    apply MatchFacts.is_empty_false in Ea, Eb. simpl.
    destruct (String.eqb_spec (normalize_title a) (normalize_title b)) as [E|E].
    { split; [|reflexivity]. intros _. repeat split; try assumption.
      left. exists "", "". rewrite E. simpl.
      symmetry. apply RatioFacts.append_empty. }
    rewrite <- !MatchFacts.contains_occurs.
    destruct (PyStr.contains _ _) eqn:C1; [simpl; split; auto|].
    destruct (PyStr.contains (PyStr.of_string (normalize_title b)) _) eqn:C2;
      [simpl; split; auto|].
    simpl. split.
    + intros H. apply Qle_bool_iff in H.
      exfalso. apply (Qlt_irrefl 1).
      eapply Qlt_le_trans; [exact Hth|]. eapply Qle_trans; eassumption.
    + intros (_ & _ & [H|H]); discriminate.
  - intros Hth Ha Hb.
    apply MatchFacts.is_empty_false in Ha, Hb. rewrite Ha, Hb. simpl.
    destruct (String.eqb _ _); [reflexivity|].
    destruct (_ || _); [reflexivity|].
    apply Qle_bool_iff. eapply Qle_trans; eassumption.
Qed.

Lemma is_title_match_threshold_edges_witness :
  (is_title_match "Juno" "Juneau" (11 # 10) = true
   <-> normalize_title "Juno" <> "" /\ normalize_title "Juneau" <> ""
       /\ (occurs_in (normalize_title "Juno") (normalize_title "Juneau")
           \/ occurs_in (normalize_title "Juneau") (normalize_title "Juno")))
  /\ is_title_match "Juno" "Hanna" 0 = true.
Proof.
  split.
  - apply (proj1 (is_title_match_threshold_edges "Juno" "Juneau" (11 # 10))).
    reflexivity.
  - apply (proj2 (is_title_match_threshold_edges "Juno" "Hanna" 0));
      [apply Qle_refl|discriminate|discriminate].
Defined.

(** * More on the decision engine *)

Module ReturnFacts.
Import MonadFacts.

Lemma status_of_details_total env api_key result st :
  exists status st',
    try_except
      (details <- get_movie_details env (sr_id result) api_key ;;
       ret (default "Unknown" (body_status details)))
      (fun e =>
         logger WARNING (LogDetailsFailed (sr_title result) e) ;;;
         ret (if is_empty (sr_release_date result) then "Unknown"
              else "Released")) st
    = (Return status, st').
Proof.
  unfold try_except, bind at 1.
  destruct (get_movie_details env (sr_id result) api_key st) as [[d|e] st1];
    simpl; eauto.
Qed.

(** The candidates loop raises only what [save_cache] raises; what it
    answers is [True] with a stored entry for a matching candidate of
    produced status, or [False]. *)
Lemma check_candidates_answer env iso title api_key yc found results :
  forall cache st,
  (exists verdict reason entry cache' st',
     check_candidates env iso title api_key yc found results cache st
     = (Return ((VBool verdict, reason, entry), cache'), st')
     /\ entries cache'
        = <[normalize_title title := entry]> (entries cache)
     /\ version cache' = version cache
     /\ (verdict = true ->
         exists result status,
           In result results
           /\ is_title_match title (sr_title result) DEFAULT_THRESHOLD = true
           /\ released_earlier yc (sr_release_date result) = None
           /\ In status PRODUCED_STATUSES
           /\ entry !! "title" = Some (VStr (sr_title result))
           /\ entry !! "release_date" = Some (VStr (sr_release_date result))
           /\ entry !! "status" = Some (VStr status)
           /\ entry !! "is_produced" = Some (VBool true)))
  \/ (exists e st',
        check_candidates env iso title api_key yc found results cache st
        = (Raise e, st')
        /\ save_raises env e).
Proof.
  assert (Hlater : forall result rest cache st st1,
    ((exists verdict reason entry cache' st',
       check_candidates env iso title api_key yc found rest cache st1
       = (Return ((VBool verdict, reason, entry), cache'), st')
       /\ entries cache'
          = <[normalize_title title := entry]> (entries cache)
       /\ version cache' = version cache
       /\ (verdict = true ->
           exists result status,
             In result rest
             /\ is_title_match title (sr_title result) DEFAULT_THRESHOLD = true
             /\ released_earlier yc (sr_release_date result) = None
             /\ In status PRODUCED_STATUSES
             /\ entry !! "title" = Some (VStr (sr_title result))
             /\ entry !! "release_date" = Some (VStr (sr_release_date result))
             /\ entry !! "status" = Some (VStr status)
             /\ entry !! "is_produced" = Some (VBool true)))
     \/ (exists e st',
           check_candidates env iso title api_key yc found rest cache st1
           = (Raise e, st')
           /\ save_raises env e)) ->
    check_candidates env iso title api_key yc found (result :: rest) cache st
    = check_candidates env iso title api_key yc found rest cache st1 ->
    (exists verdict reason entry cache' st',
       check_candidates env iso title api_key yc found (result :: rest)
                        cache st
       = (Return ((VBool verdict, reason, entry), cache'), st')
       /\ entries cache'
          = <[normalize_title title := entry]> (entries cache)
       /\ version cache' = version cache
       /\ (verdict = true ->
           exists result0 status,
             In result0 (result :: rest)
             /\ is_title_match title (sr_title result0) DEFAULT_THRESHOLD
                = true
             /\ released_earlier yc (sr_release_date result0) = None
             /\ In status PRODUCED_STATUSES
             /\ entry !! "title" = Some (VStr (sr_title result0))
             /\ entry !! "release_date"
                = Some (VStr (sr_release_date result0))
             /\ entry !! "status" = Some (VStr status)
             /\ entry !! "is_produced" = Some (VBool true)))
    \/ (exists e st',
          check_candidates env iso title api_key yc found (result :: rest)
                           cache st
          = (Raise e, st')
          /\ save_raises env e)).
  { intros result rest cache st st1 IH ->.
    destruct IH as [(v & r & e & c' & s' & H & He & Hv & Hp)|Hraise];
      [left|now right].
    exists v, r, e, c', s'. repeat split; try assumption.
    intros Ht. destruct (Hp Ht) as (res & status & Hin & Hrest).
    exists res, status. split; [now right|exact Hrest]. }
  induction results as [|result rest IH]; intros cache st.
  - remember (check_candidates env iso title api_key yc found [] cache st)
      as run eqn:Hrun.
    cbn [check_candidates] in Hrun. unfold bind at 1 in Hrun.
    cbn [now] in Hrun.
    match type of Hrun with
    | context [bind (store env iso title ?e cache) _ ?s] =>
        destruct (EngineFacts.store_outcome env iso title e cache s)
          as [(cache' & st' & Hst & He & Hv & _)|(ex & st' & Hst & Hs & _)]
    end.
    + rewrite (bind_return _ _ _ _ _ Hst) in Hrun. subst run. left.
      eexists false, _, _, cache', st'. split; [reflexivity|].
      split; [exact He|]. split; [exact Hv|discriminate].
    + rewrite (bind_raise _ _ _ _ _ Hst) in Hrun. subst run. right.
      now exists ex, st'.
  - destruct (is_title_match title (sr_title result) DEFAULT_THRESHOLD)
      eqn:Hm.
    2:{ apply (Hlater result rest cache st st (IH cache st)).
        cbn [check_candidates]. now rewrite Hm. }
    destruct (released_earlier yc (sr_release_date result)) as [[ry y]|] eqn:Hy.
    { eapply Hlater; [apply IH|].
      cbn [check_candidates]. rewrite Hm, Hy. cbn [negb].
      unfold bind at 1. cbn [logger]. reflexivity. }
    destruct (status_of_details_total env api_key result st)
      as (status & st1 & Hs).
    destruct (existsb (String.eqb status) PRODUCED_STATUSES) eqn:Hprod.
    + remember (check_candidates env iso title api_key yc found
                                 (result :: rest) cache st) as run eqn:Hrun.
      cbn [check_candidates] in Hrun. rewrite Hm, Hy in Hrun.
      cbn [negb] in Hrun.
      rewrite (bind_return _ _ _ _ _ Hs) in Hrun. rewrite Hprod in Hrun.
      unfold bind at 1 in Hrun. cbn [now] in Hrun.
      match type of Hrun with
      | context [bind (store env iso title ?e cache) _ ?s] =>
          destruct (EngineFacts.store_outcome env iso title e cache s)
            as [(cache' & st' & Hst & He & Hv & _)|(ex & st' & Hst & Hx & _)]
      end.
      2:{ rewrite (bind_raise _ _ _ _ _ Hst) in Hrun. subst run. right.
          now exists ex, st'. }
      rewrite (bind_return _ _ _ _ _ Hst) in Hrun. subst run. left.
      eexists true, _, _, cache', st'. split; [reflexivity|].
      split; [exact He|]. split; [exact Hv|].
      intros _. exists result, status.
      split; [now left|]. split; [exact Hm|]. split; [exact Hy|].
      split.
      { apply existsb_exists in Hprod as (s0 & Hin & Heq).
        apply String.eqb_eq in Heq. now subst s0. }
      repeat split; reflexivity.
    + apply (Hlater result rest cache st st1 (IH cache st1)).
      cbn [check_candidates]. rewrite Hm, Hy. cbn [negb].
      rewrite (bind_return _ _ _ _ _ Hs). now rewrite Hprod.
Qed.

Lemma search_and_decide_answer env iso title api_key yc cache st :
  (exists verdict reason entry cache' st',
     search_and_decide env iso title api_key yc cache st
     = (Return ((VBool verdict, reason, entry), cache'), st')
     /\ (entries cache' = entries cache
         \/ entries cache'
            = <[normalize_title title := entry]> (entries cache))
     /\ version cache' = version cache
     /\ (verdict = true ->
         entries cache' !! normalize_title title = Some entry
         /\ exists tmdb_title release_date status,
              is_title_match title tmdb_title DEFAULT_THRESHOLD = true
              /\ released_earlier yc release_date = None
              /\ In status PRODUCED_STATUSES
              /\ entry !! "title" = Some (VStr tmdb_title)
              /\ entry !! "release_date" = Some (VStr release_date)
              /\ entry !! "status" = Some (VStr status)
              /\ entry !! "is_produced" = Some (VBool true)))
  \/ (exists e st',
        search_and_decide env iso title api_key yc cache st = (Raise e, st')
        /\ save_raises env e).
Proof.
  remember (search_and_decide env iso title api_key yc cache st)
    as run eqn:Hrun.
  unfold search_and_decide in Hrun. unfold bind at 1 in Hrun.
  cbn [logger] in Hrun.
  unfold bind at 1, try_except in Hrun. unfold bind at 1 in Hrun.
  match type of Hrun with
  | context [search_tmdb env title api_key ?s] =>
      destruct (search_tmdb env title api_key s) as [[results|e] st2]
  end; cbn [ret logger] in Hrun.
  - destruct results as [|r rs].
    + unfold bind at 1 in Hrun. cbn [now] in Hrun.
      match type of Hrun with
      | context [bind (store env iso title ?e cache) _ ?s] =>
          destruct (EngineFacts.store_outcome env iso title e cache s)
            as [(cache' & st' & Hst & He & Hv & _)|(ex & st' & Hst & Hx & _)]
      end.
      2:{ rewrite (bind_raise _ _ _ _ _ Hst) in Hrun. subst run. right.
          now exists ex, st'. }
      rewrite (bind_return _ _ _ _ _ Hst) in Hrun. subst run. left.
      eexists false, _, _, cache', st'. split; [reflexivity|].
      split; [now right|]. split; [exact Hv|discriminate].
    + subst run.
      destruct (check_candidates_answer env iso title api_key yc
                  (length (r :: rs)) (r :: rs) cache st2)
        as [(v & reason & e & c' & s' & H & He & Hv & Hp)|Hraise];
        [left|now right].
      exists v, reason, e, c', s'. split; [exact H|].
      split; [now right|]. split; [exact Hv|].
      intros Ht. split; [rewrite He; apply lookup_insert_eq|].
      destruct (Hp Ht) as (res & status & _ & H1 & H2 & H3 & H4 & H5 & H6 & H7).
      exists (sr_title res), (sr_release_date res), status. now repeat split.
  - subst run. left. eexists false, _, _, cache, _. split; [reflexivity|].
    split; [now left|]. split; [reflexivity|discriminate].
Qed.


(** The cache lookup sends nothing. *)
Lemma get_cached_result_requests env fromiso title cache st :
  requests (snd (get_cached_result env fromiso title cache st)) = requests st.
Proof.
  unfold get_cached_result.
  destruct (entries cache !! normalize_title title) as [entry|];
    [|reflexivity].
  destruct (truthy (dict_get entry "checked_at")); [|reflexivity].
  destruct (dict_get entry "checked_at") as [| | |stamp|]; try reflexivity.
  destruct (fromiso stamp) as [[checked|checked]|]; try reflexivity.
  unfold bind, now. destruct (_ >? _)%Z; reflexivity.
Qed.


End ReturnFacts.

(** X4: when the search path of [check_if_produced] answers [True], the
    entry it returns and stores under the normalised title names a TMDB
    title that [is_title_match] accepts for the query, a release date the
    year test let through, and a status out of [PRODUCED_STATUSES]. *)
Theorem produced_verdict_is_backed_by_a_candidate
    (env : Env) (isoformat : Z -> string) (title api_key : string)
    (year_context : option Z) (cache cache' : Cache)
    (verdict : pyval) (reason : Reason) (entry : Entry) (st st' : State) :
  search_and_decide env isoformat title api_key year_context cache st
  = (Return ((verdict, reason, entry), cache'), st') ->
  truthy verdict = true ->
  entries cache' !! normalize_title title = Some entry
  /\ exists tmdb_title release_date status,
       entry !! "title" = Some (VStr tmdb_title)
       /\ entry !! "release_date" = Some (VStr release_date)
       /\ entry !! "status" = Some (VStr status)
       /\ is_title_match title tmdb_title DEFAULT_THRESHOLD = true
       /\ released_earlier year_context release_date = None
       /\ In status PRODUCED_STATUSES.
Proof.
  intros Hrun Ht.
  destruct (ReturnFacts.search_and_decide_answer env isoformat title api_key
              year_context cache st)
    as [(v & r & e & c' & s' & H & _ & _ & Hp)|(ex & s' & H & _)];
    [|congruence].
  rewrite Hrun in H. injection H as -> -> -> -> ->.
  destruct v; [|discriminate].
  destruct (Hp eq_refl) as (Hk & t & d & s & H1 & H2 & H3 & H4 & H5 & H6 & _).
  split; [exact Hk|]. exists t, d, s. now repeat split.
Qed.

Lemma produced_verdict_is_backed_by_a_candidate_witness :
  let env := Sample.world 0 (Sample.tmdb_with [Sample.juno] "Post Production")
                          Missing in
  exists reason entry cache' st' tmdb_title,
    search_and_decide env Sample.isoformat "JUNO" "key" (Some 2006%Z)
                      empty_cache (initial_state Missing)
    = (Return ((VBool true, reason, entry), cache'), st')
    /\ entry !! "title" = Some (VStr tmdb_title)
    /\ is_title_match "JUNO" tmdb_title DEFAULT_THRESHOLD = true.
Proof.
  intros env.
  destruct (search_and_decide env Sample.isoformat "JUNO" "key" (Some 2006%Z)
              empty_cache (initial_state Missing))
    as [[[[[v r] e] c]|ex] s'] eqn:E;
    [|exfalso; revert E; vm_compute; discriminate].
  assert (Hv : v = VBool true).
  { revert E. vm_compute. now intros [= <- _ _ _ _]. }
  subst v.
  destruct (produced_verdict_is_backed_by_a_candidate
              env Sample.isoformat "JUNO" "key" (Some 2006%Z) empty_cache c
              (VBool true) r e (initial_state Missing) s' E eq_refl)
    as (_ & t & d & s & H1 & _ & _ & H4 & _).
  exists r, e, c, s', t. now repeat split.
Defined.

(** X5: a call of [check_if_produced] that returns leaves every cache
    entry other than the one of its own normalised title as it was, and
    keeps the version tag. *)
Theorem check_if_produced_touches_own_entry_only
    (env : Env) (fromisoformat : string -> option datetime)
    (isoformat : Z -> string)
    (title api_key : string) (year_context : option Z)
    (c : option Cache) (cache cache' : Cache) (decision : Decision)
    (st st0 st' : State) :
  open_cache c st = (Return cache, st0) ->
  check_if_produced env fromisoformat isoformat title api_key year_context c st
  = (Return (decision, cache'), st') ->
  version cache' = version cache
  /\ forall key : string,
       key <> normalize_title title ->
       entries cache' !! key = entries cache !! key.
Proof.
  intros Ho Hrun. unfold check_if_produced in Hrun.
  rewrite (MonadFacts.bind_return _ _ _ _ _ Ho) in Hrun.
  unfold bind at 1 in Hrun.
  destruct (get_cached_result env fromisoformat title cache st0)
    as [[cached|e] st1]; [|discriminate].
  assert (Hsearch : forall d c' s',
            search_and_decide env isoformat title api_key year_context
                              cache st1 = (Return (d, c'), s') ->
            version c' = version cache
            /\ forall key, key <> normalize_title title ->
                 entries c' !! key = entries cache !! key).
  { intros d c' s' H.
    destruct (ReturnFacts.search_and_decide_answer env isoformat title api_key
                year_context cache st1)
      as [(v & r & e & c2 & s2 & H2 & He & Hv & _)|(ex & s2 & H2 & _)];
      [|congruence].
    rewrite H in H2. injection H2 as _ -> _.
    split; [exact Hv|]. intros key Hkey.
    destruct He as [-> | ->]; [reflexivity|].
    now apply lookup_insert_ne. }
  destruct cached as [entry|]; [|eapply Hsearch, Hrun].
  destruct (dict_truthy entry); [|eapply Hsearch, Hrun].
  injection Hrun as _ <- _. now split.
Qed.

Lemma check_if_produced_touches_own_entry_only_witness :
  let env := Sample.world 0 (Sample.tmdb_with [Sample.juno] "Released")
                          Missing in
  let cache := Sample.cache_of "hanna" {[ "is_produced" := VBool false ]} in
  let run := check_if_produced env Sample.fromisoformat Sample.isoformat
               "Juno" "key" None (Some cache) (initial_state Missing) in
  match fst run with
  | Return (_, cache') =>
      entries cache' !! "hanna" = Some {[ "is_produced" := VBool false ]}
  | Raise _ => False
  end.
Proof.
  intros env cache run.
  destruct run as [[[d cache']|e] st'] eqn:E; [|discriminate].
  cbn [fst].
  destruct (check_if_produced_touches_own_entry_only
              env Sample.fromisoformat Sample.isoformat "Juno" "key" None
              (Some cache) cache cache' d (initial_state Missing)
              (initial_state Missing) st' eq_refl E) as [_ H].
  now rewrite (H "hanna" ltac:(discriminate)).
Defined.





(** * More on the entry point, the cache file and the retries *)

(** X8: with an API key and no override for the title, a cached entry
    whose ["checked_at"] is a non-empty string that [fromisoformat]
    rejects makes [main] exit with code 2, without any request and without
    rewriting the cache file, so that the next run meets the same entry. *)
Theorem unreadable_timestamp_exits_with_two
    (env : Env) (fromisoformat : string -> option datetime)
    (isoformat : Z -> string)
    (args : Args) (api_key : string) (overrides : Overrides)
    (cache : Cache) (entry : Entry) (stamp : string) (st st1 : State) :
  api_key_env env = Some api_key ->
  api_key <> "" ->
  load_overrides env st = (Return overrides, st1) ->
  listed (normalize_title (arg_title args)) (force_analyze overrides) = false ->
  listed (normalize_title (arg_title args)) (force_skip overrides) = false ->
  cache_file st = Json cache ->
  entries cache !! normalize_title (arg_title args) = Some entry ->
  entry !! "checked_at" = Some (VStr stamp) ->
  stamp <> "" ->
  fromisoformat stamp = None ->
  exists st',
    main env fromisoformat isoformat args st = (Return 2%Z, st')
    /\ requests st' = requests st
    /\ cache_file st' = Json cache.
Proof.
  intros Hk Hne Hl Ha Hs Hf He Hc Hstamp Hiso.
  apply MatchFacts.is_empty_false in Hne, Hstamp.
  assert (Hst1 : requests st1 = requests st /\ cache_file st1 = Json cache).
  { revert Hl. unfold load_overrides.
    destruct (overrides_file env); simpl; try discriminate;
      intros [= _ <-]; now split. }
  destruct Hst1 as [Hr1 Hf1].
  unfold main. rewrite Hk, Hne.
  rewrite (MonadFacts.bind_return _ _ _ _ _ Hl). rewrite Ha, Hs.
  unfold try_except, bind at 1.
  assert (Hrun : check_if_produced env fromisoformat isoformat
                   (arg_title args) api_key (arg_year_context args) None st1
                 = (Raise (value_error "Invalid isoformat string"), st1)).
  { unfold check_if_produced.
    assert (Ho : open_cache None st1 = (Return cache, st1)).
    { simpl. unfold load_cache, bind, read_cache_file. now rewrite Hf1. }
    rewrite (MonadFacts.bind_return _ _ _ _ _ Ho).
    unfold bind at 1, get_cached_result, dict_get.
    rewrite He, Hc. simpl. rewrite Hstamp. simpl. now rewrite Hiso. }
  rewrite Hrun. eexists. split; [reflexivity|]. simpl. now split.
Qed.

Lemma unreadable_timestamp_exits_with_two_witness :
  let env := Sample.world 0 (Sample.tmdb_with [Sample.juno] "Released")
                          Missing in
  let cache := Sample.cache_of "juno" {[ "checked_at" := VStr "yesterday" ]} in
  let args := {| arg_title := "Juno"; arg_year_context := None |} in
  exists st',
    main env Sample.fromisoformat Sample.isoformat args
         (initial_state (Json cache)) = (Return 2%Z, st')
    /\ requests st' = [] /\ cache_file st' = Json cache.
Proof.
  intros env cache args.
  apply (unreadable_timestamp_exits_with_two env Sample.fromisoformat
           Sample.isoformat args "key" no_overrides cache
           {[ "checked_at" := VStr "yesterday" ]} "yesterday"
           (initial_state (Json cache)) (initial_state (Json cache)));
    try reflexivity; discriminate.
Defined.

(** X9: what [save_cache] leaves for the next [load_cache].  When the
    directory of the cache cannot be created, [save_cache] raises at once:
    nothing is stamped, written or logged.  Otherwise the clock is read
    once and the document stamped with it.  After a successful write
    [load_cache] reads back exactly that document.  When [open] refuses, a
    warning is logged and the file is as before.  When the write breaks
    off after [open] has emptied the file, the file is left unreadable and
    [load_cache] falls back to the empty cache: [save_cache] then logs a
    warning if an [IOError] broke the write, and lets any other exception
    through. *)
Theorem save_cache_then_load_cache
    (env : Env) (isoformat : Z -> string) (cache : Cache) (st : State) :
  let saved := set_last_updated (isoformat (clock env (ticks st))) cache in
  let run := save_cache env isoformat cache st in
  (forall e, cache_dir_error env = Some e -> run = (Raise e, st))
  /\ (cache_dir_error env = None ->
      ticks (snd run) = S (ticks st)
      /\ (cache_write env = Written ->
          fst run = Return saved
          /\ load_cache (snd run) = (Return saved, snd run)
          /\ log (snd run) = log st)
      /\ (cache_write env = OpenRefused ->
          fst run = Return saved
          /\ cache_file (snd run) = cache_file st
          /\ log (snd run) = log st ++ [(WARNING, LogCacheSaveFailed)])
      /\ (cache_write env = DumpInterrupted ->
          fst run = Return saved
          /\ cache_file (snd run) = Unreadable
          /\ fst (load_cache (snd run)) = Return empty_cache
          /\ log (snd run) = log st ++ [(WARNING, LogCacheSaveFailed)])
      /\ (forall e, cache_write env = DumpRaises e ->
          fst run = Raise e
          /\ cache_file (snd run) = Unreadable
          /\ fst (load_cache (snd run)) = Return empty_cache)).
Proof.
  intros saved run. subst saved run.
  unfold save_cache, mkdir_cache_dir. split.
  - intros e ->. reflexivity.
  - intros ->. unfold bind, now, ret. simpl.
    destruct (cache_write env) as [| | |e0]; simpl;
      (split; [reflexivity|]);
      (split; [intros H; try discriminate H; now repeat split|]);
      (split; [intros H; try discriminate H; now repeat split|]);
      (split; [intros H; try discriminate H; now repeat split|]);
      intros e H; try discriminate H.
    injection H as <-. now repeat split.
Qed.

Lemma save_cache_then_load_cache_witness :
  let env := Sample.writing DumpInterrupted
               (Sample.world 0 Sample.empty_tmdb Missing) in
  let kept := Sample.cache_of "hanna" {[ "is_produced" := VBool true ]} in
  let cache := Sample.cache_of "juno" {[ "is_produced" := VBool false ]} in
  let st := snd (save_cache env Sample.isoformat cache
                            (initial_state (Json kept))) in
  fst (load_cache (initial_state (Json kept))) = Return kept
  /\ fst (load_cache st) = Return empty_cache.
Proof.
  intros env kept cache st. split; [reflexivity|].
  destruct (proj2 (save_cache_then_load_cache env Sample.isoformat cache
                     (initial_state (Json kept))) eq_refl)
    as (_ & _ & _ & H & _).
  now destruct (H eq_refl) as (_ & _ & Hload & _).
Defined.

(** X16: with an API key and no override for the title, a cached entry
    whose ["checked_at"] carries a UTC offset makes the lookup raise a
    [TypeError], once the clock has been read: [datetime.now()] is naive
    and the two cannot be subtracted.  [main] exits with code 2, without
    any request and without rewriting the cache file. *)
Theorem offset_aware_timestamp_exits_with_two
    (env : Env) (fromisoformat : string -> option datetime)
    (isoformat : Z -> string)
    (args : Args) (api_key : string) (overrides : Overrides)
    (cache : Cache) (entry : Entry) (stamp : string) (checked_date : Z)
    (st st1 : State) :
  api_key_env env = Some api_key ->
  api_key <> "" ->
  load_overrides env st = (Return overrides, st1) ->
  listed (normalize_title (arg_title args)) (force_analyze overrides) = false ->
  listed (normalize_title (arg_title args)) (force_skip overrides) = false ->
  cache_file st = Json cache ->
  entries cache !! normalize_title (arg_title args) = Some entry ->
  entry !! "checked_at" = Some (VStr stamp) ->
  stamp <> "" ->
  fromisoformat stamp = Some (Aware checked_date) ->
  exists e st',
    get_cached_result env fromisoformat (arg_title args) cache st1
    = (Raise e, snd (now env st1))
    /\ exn_class_of e = TypeError
    /\ main env fromisoformat isoformat args st = (Return 2%Z, st')
    /\ requests st' = requests st
    /\ cache_file st' = Json cache.
Proof.
  intros Hk Hne Hl Ha Hs Hf He Hc Hstamp Hiso.
  apply MatchFacts.is_empty_false in Hne, Hstamp.
  assert (Hst1 : requests st1 = requests st /\ cache_file st1 = Json cache).
  { revert Hl. unfold load_overrides.
    destruct (overrides_file env); simpl; try discriminate;
      intros [= _ <-]; now split. }
  destruct Hst1 as [Hr1 Hf1].
  assert (Hg : get_cached_result env fromisoformat (arg_title args) cache st1
               = (Raise (type_error
                    "can't subtract offset-naive and offset-aware datetimes"),
                  snd (now env st1))).
  { unfold get_cached_result, dict_get.
    rewrite He, Hc. simpl. rewrite Hstamp. simpl. now rewrite Hiso. }
  eexists _, _. split; [exact Hg|]. split; [reflexivity|].
  unfold main. rewrite Hk, Hne.
  rewrite (MonadFacts.bind_return _ _ _ _ _ Hl). rewrite Ha, Hs.
  unfold try_except, bind at 1.
  assert (Hrun : check_if_produced env fromisoformat isoformat
                   (arg_title args) api_key (arg_year_context args) None st1
                 = (Raise (type_error
                      "can't subtract offset-naive and offset-aware datetimes"),
                    snd (now env st1))).
  { unfold check_if_produced.
    assert (Ho : open_cache None st1 = (Return cache, st1)).
    { simpl. unfold load_cache, bind, read_cache_file. now rewrite Hf1. }
    rewrite (MonadFacts.bind_return _ _ _ _ _ Ho).
    now rewrite (MonadFacts.bind_raise _ _ _ _ _ Hg). }
  rewrite Hrun. split; [reflexivity|]. simpl. now split.
Qed.

Lemma offset_aware_timestamp_exits_with_two_witness :
  let env := Sample.world 0 (Sample.tmdb_with [Sample.juno] "Released")
                          Missing in
  let cache := Sample.cache_of "juno"
                 {[ "checked_at" := VStr Sample.zoned_stamp ]} in
  let args := {| arg_title := "Juno"; arg_year_context := None |} in
  exists st',
    main env Sample.fromisoformat Sample.isoformat args
         (initial_state (Json cache)) = (Return 2%Z, st')
    /\ requests st' = [] /\ cache_file st' = Json cache.
Proof.
  intros env cache args.
  destruct (offset_aware_timestamp_exits_with_two env Sample.fromisoformat
              Sample.isoformat args "key" no_overrides cache
              {[ "checked_at" := VStr Sample.zoned_stamp ]}
              Sample.zoned_stamp 0%Z
              (initial_state (Json cache)) (initial_state (Json cache))
              eq_refl ltac:(discriminate) eq_refl eq_refl eq_refl eq_refl
              eq_refl eq_refl ltac:(discriminate) eq_refl)
    as (e & st' & _ & _ & Hmain & Hr & Hf).
  exists st'. now repeat split.
Defined.

Module SaveFacts.
Import MonadFacts.

Lemma store_without_dir env iso title entry cache st e :
  cache_dir_error env = Some e ->
  store env iso title entry cache st = (Raise e, st).
Proof.
  intros H. unfold store, save_cache, mkdir_cache_dir. now rewrite H.
Qed.

(** Without the directory of the cache, the candidates loop ends in the
    exception of [mkdir], whatever it decides. *)
Lemma check_candidates_without_dir env iso title api_key yc found results e :
  cache_dir_error env = Some e ->
  forall cache st, exists st',
    check_candidates env iso title api_key yc found results cache st
    = (Raise e, st').
Proof.
  intros Hdir. induction results as [|result rest IH]; intros cache st.
  - cbn [check_candidates]. unfold bind at 1. cbn [now].
    eexists. erewrite bind_raise; [reflexivity|].
    now apply store_without_dir.
  - cbn [check_candidates].
    destruct (is_title_match title (sr_title result) DEFAULT_THRESHOLD);
      cbn [negb]; [|apply IH].
    destruct (released_earlier yc (sr_release_date result)) as [[ry y]|].
    { unfold bind at 1. cbn [logger]. apply IH. }
    destruct (ReturnFacts.status_of_details_total env api_key result st)
      as (status & st1 & Hs).
    rewrite (bind_return _ _ _ _ _ Hs).
    destruct (existsb (String.eqb status) PRODUCED_STATUSES); [|apply IH].
    unfold bind at 1. cbn [now].
    eexists. erewrite bind_raise; [reflexivity|].
    now apply store_without_dir.
Qed.

End SaveFacts.

(** X17: when the directory of the cache cannot be created, a search that
    TMDB answers is lost: whatever the candidates are, [check_if_produced]
    ends in the exception of [mkdir], and [main] prints the error and
    exits with code 2, after the search request was sent. *)
Theorem unsaved_decision_exits_with_two
    (env : Env) (fromisoformat : string -> option datetime)
    (isoformat : Z -> string)
    (args : Args) (api_key : string) (overrides : Overrides)
    (cache : Cache) (cached : option Entry) (results : list SearchResult)
    (e : exn) (st st1 st2 st3 st4 : State) :
  api_key_env env = Some api_key ->
  api_key <> "" ->
  load_overrides env st = (Return overrides, st1) ->
  listed (normalize_title (arg_title args)) (force_analyze overrides) = false ->
  listed (normalize_title (arg_title args)) (force_skip overrides) = false ->
  open_cache None st1 = (Return cache, st2) ->
  get_cached_result env fromisoformat (arg_title args) cache st2
    = (Return cached, st3) ->
  cached = None \/ cached = Some ∅ ->
  search_tmdb env (arg_title args) api_key
              (snd (logger INFO (LogSearching (arg_title args)) st3))
    = (Return results, st4) ->
  cache_dir_error env = Some e ->
  exists st5 st',
    check_if_produced env fromisoformat isoformat (arg_title args) api_key
                      (arg_year_context args) None st1
    = (Raise e, st5)
    /\ main env fromisoformat isoformat args st = (Return 2%Z, st')
    /\ console st' = console st5 ++ [PrintError e]
    /\ exists more,
         requests st'
         = requests st ++ SearchMovie api_key (arg_title args) :: more.
Proof.
  intros Hk Hne Hl Ha Hs Ho Hg Hmiss Hsearch Hdir.
  apply MatchFacts.is_empty_false in Hne.
  assert (Hr1 : requests st1 = requests st).
  { revert Hl. unfold load_overrides.
    destruct (overrides_file env); simpl; try discriminate;
      now intros [= _ <-]. }
  pose proof (open_cache_requests None st1 cache st2 Ho) as Hr2.
  assert (Hr3 : requests st3 = requests st2).
  { pose proof (ReturnFacts.get_cached_result_requests env fromisoformat
                  (arg_title args) cache st2) as H. now rewrite Hg in H. }
  assert (Hdecide : exists st5,
            search_and_decide env isoformat (arg_title args) api_key
                              (arg_year_context args) cache st3
            = (Raise e, st5)).
  { rewrite (EngineFacts.search_and_decide_after_search _ _ _ _ _ _ _ _ _
               Hsearch).
    destruct results as [|r rs].
    - unfold bind at 1. cbn [now]. eexists.
      erewrite MonadFacts.bind_raise; [reflexivity|].
      now apply SaveFacts.store_without_dir.
    - now apply SaveFacts.check_candidates_without_dir. }
  destruct Hdecide as [st5 Hdecide].
  assert (Hrun : check_if_produced env fromisoformat isoformat
                   (arg_title args) api_key (arg_year_context args) None st1
                 = (Raise e, st5)).
  { rewrite (check_if_produced_miss env fromisoformat isoformat
               (arg_title args) api_key (arg_year_context args) None cache
               cached st1 st2 st3 Ho Hg Hmiss).
    exact Hdecide. }
  exists st5. eexists. split; [exact Hrun|].
  unfold main. rewrite Hk, Hne.
  rewrite (MonadFacts.bind_return _ _ _ _ _ Hl). rewrite Ha, Hs.
  unfold try_except, bind at 1. rewrite Hrun.
  split; [reflexivity|]. split; [reflexivity|].
  destruct (MonadFacts.search_and_decide_sends env isoformat
              (arg_title args) api_key (arg_year_context args) cache st3)
    as [more Hm].
  rewrite Hdecide in Hm. exists more. simpl in Hm |- *. congruence.
Qed.

Lemma unsaved_decision_exits_with_two_witness :
  let env := Sample.without_cache_dir
               (Sample.world 0 (Sample.tmdb_with [Sample.juno] "Released")
                             Missing) in
  let args := {| arg_title := "Juno"; arg_year_context := None |} in
  exists st',
    main env Sample.fromisoformat Sample.isoformat args
         (initial_state Missing) = (Return 2%Z, st')
    /\ In (PrintError Sample.permission_error) (console st')
    /\ exists more, requests st' = SearchMovie "key" "Juno" :: more.
Proof.
  intros env args.
  destruct (unsaved_decision_exits_with_two env Sample.fromisoformat
              Sample.isoformat args "key" no_overrides empty_cache None
              [Sample.juno] Sample.permission_error
              (initial_state Missing) (initial_state Missing)
              (initial_state Missing) (initial_state Missing)
              (snd (search_tmdb env "Juno" "key"
                      (snd (logger INFO (LogSearching "Juno")
                              (initial_state Missing)))))
              eq_refl ltac:(discriminate) eq_refl eq_refl eq_refl eq_refl
              eq_refl (or_introl eq_refl) eq_refl eq_refl)
    as (st5 & st' & _ & Hmain & Hc & more & Hm).
  exists st'. split; [exact Hmain|]. split.
  - rewrite Hc. apply in_or_app. right. now left.
  - now exists more.
Defined.

Module AttemptFacts.
Import MonadFacts RetryFacts.

(** A call retried by [with_retry] around one HTTP exchange sends the
    request one to three times and waits between two attempts. *)
Lemma exchange_attempts {A} env req (k : Body -> A) st :
  exists n,
    1 <= n <= 3
    /\ requests (snd (with_retry (body <- http_get env req ;; ret (k body)) st))
       = requests st ++ repeat req n
    /\ naps (snd (with_retry (body <- http_get env req ;; ret (k body)) st))
       = naps st + (n - 1).
Proof.
  set (run := with_retry (body <- http_get env req ;; ret (k body)) st).
  assert (Hr : run = with_retry (body <- http_get env req ;; ret (k body)) st)
    by reflexivity.
  clearbody run. unfold with_retry in Hr.
  cbn [retry_loop Nat.sub STOP_AFTER_ATTEMPT] in Hr.
  unfold try_except at 1, bind at 1, http_get at 1 in Hr.
  destruct (tmdb env (length (requests st)) req) as [e1|b1]; cbn [ret] in Hr.
  2:{ subst run. exists 1. simpl. split; [lia|]. split; [reflexivity|lia]. }
  destruct (retry_if_exception_type RETRYABLE_EXCEPTIONS e1).
  2:{ subst run. exists 1. simpl. split; [lia|]. split; [reflexivity|lia]. }
  unfold bind at 1 in Hr. cbn [logger] in Hr.
  unfold bind at 1 in Hr. cbn [sleep] in Hr.
  unfold try_except at 1, bind at 1, http_get at 1 in Hr.
  cbn [requests] in Hr.
  destruct (tmdb env _ req) as [e2|b2]; cbn [ret] in Hr.
  2:{ subst run. exists 2. simpl. split; [lia|].
      split; [now rewrite <- app_assoc|lia]. }
  destruct (retry_if_exception_type RETRYABLE_EXCEPTIONS e2).
  2:{ subst run. exists 2. simpl. split; [lia|].
      split; [now rewrite <- app_assoc|lia]. }
  unfold bind at 1 in Hr. cbn [logger] in Hr.
  unfold bind at 1 in Hr. cbn [sleep] in Hr.
  unfold try_except at 1, bind at 1, http_get at 1 in Hr.
  cbn [requests] in Hr.
  exists 3.
  destruct (tmdb env _ req) as [e3|b3]; cbn [ret] in Hr;
    [destruct (retry_if_exception_type RETRYABLE_EXCEPTIONS e3)|];
    subst run; simpl; (split; [lia|]);
    (split; [now rewrite <- !app_assoc|lia]).
Qed.

(** Retrying the bare exchange is retrying the exchange followed by
    [ret]. *)
Lemma bare_exchange env req m : forall st,
  retry_loop RETRYABLE_EXCEPTIONS m (http_get env req) st
  = retry_loop RETRYABLE_EXCEPTIONS m
      (body <- http_get env req ;; ret body) st.
Proof.
  assert (Hcall : forall s,
            http_get env req s = (body <- http_get env req ;; ret body) s).
  { intros s. unfold bind, http_get. now destruct (tmdb env _ _). }
  induction m as [|m IH]; intros s; cbn [retry_loop];
    unfold try_except; rewrite <- Hcall;
    destruct (http_get env req s) as [[b|e] s']; try reflexivity;
    destruct (retry_if_exception_type _ e); try reflexivity.
  unfold bind at 1 3. cbn [logger]. unfold bind at 1 2. cbn [sleep].
  apply IH.
Qed.

End AttemptFacts.

(** X10: whatever TMDB answers, one call of [search_tmdb] sends its
    request at least once and at most three times, and waits exactly
    between two attempts; so does one call of [get_movie_details]. *)
Theorem at_most_three_attempts
    (env : Env) (title api_key : string) (movie_id : option Z) (st : State) :
  (exists n,
     1 <= n <= 3
     /\ requests (snd (search_tmdb env title api_key st))
        = requests st ++ repeat (SearchMovie api_key title) n
     /\ naps (snd (search_tmdb env title api_key st)) = naps st + (n - 1))
  /\ (exists n,
        1 <= n <= 3
        /\ requests (snd (get_movie_details env movie_id api_key st))
           = requests st ++ repeat (MovieDetails api_key movie_id) n
        /\ naps (snd (get_movie_details env movie_id api_key st))
           = naps st + (n - 1)).
Proof.
  split.
  - apply (AttemptFacts.exchange_attempts env (SearchMovie api_key title)
             body_results st).
  - destruct (AttemptFacts.exchange_attempts env
                (MovieDetails api_key movie_id) (fun b => b) st)
      as (n & Hn & Hr & Hs).
    exists n. split; [exact Hn|].
    assert (Heq : get_movie_details env movie_id api_key st
                  = with_retry (body <- http_get env
                                  (MovieDetails api_key movie_id) ;;
                                ret body) st)
      by apply AttemptFacts.bare_exchange.
    rewrite Heq. now split.
Qed.

(** X11: a failure of a listed class on the first attempt followed by an
    answer on the second is absorbed: [search_tmdb] returns the results of
    the second answer after two requests, one warning and one wait. *)
Theorem transient_failure_is_absorbed
    (env : Env) (title api_key : string) (st : State) (e : exn) (body : Body) :
  let req := SearchMovie api_key title in
  tmdb env (length (requests st)) req = Fails e ->
  retry_if_exception_type RETRYABLE_EXCEPTIONS e = true ->
  tmdb env (S (length (requests st))) req = Answers body ->
  exists st',
    search_tmdb env title api_key st = (Return (body_results body), st')
    /\ requests st' = requests st ++ [req; req]
    /\ naps st' = S (naps st)
    /\ log st' = log st ++ [(WARNING, LogRetrying e)].
Proof.
  intros req H1 Hl H2. unfold search_tmdb, with_retry.
  cbn [retry_loop Nat.sub STOP_AFTER_ATTEMPT].
  unfold try_except at 1, bind at 1, http_get at 1. fold req.
  rewrite H1, Hl.
  unfold bind at 1. cbn [logger]. unfold bind at 1. cbn [sleep].
  unfold try_except at 1, bind at 1, http_get at 1. cbn [requests].
  rewrite length_app, Nat.add_1_r. fold req. rewrite H2.
  eexists. split; [reflexivity|]. simpl.
  repeat split. now rewrite <- app_assoc.
Qed.

Lemma transient_failure_is_absorbed_witness :
  let flaky : nat -> Request -> Response :=
    fun n _ => match n with
               | O => Fails Sample.connect_error
               | _ => Answers {| body_results := [Sample.juno];
                                 body_status := None |}
               end in
  let env := Sample.world 0 flaky Missing in
  exists st',
    search_tmdb env "Juno" "key" (initial_state Missing)
    = (Return [Sample.juno], st')
    /\ naps st' = 1.
Proof.
  intros flaky env.
  destruct (transient_failure_is_absorbed env "Juno" "key"
              (initial_state Missing) Sample.connect_error
              {| body_results := [Sample.juno]; body_status := None |}
              eq_refl eq_refl eq_refl) as (st' & H & _ & Hn & _).
  exists st'. now split.
Defined.

(** X12: an exception of a class outside [RETRYABLE_EXCEPTIONS] (a body
    that is not JSON, say) is raised after a single request, without
    warning and without wait, by [search_tmdb] and by
    [get_movie_details]. *)
Theorem unlisted_exception_is_not_retried
    (env : Env) (title api_key : string) (movie_id : option Z)
    (st : State) (e : exn) :
  retry_if_exception_type RETRYABLE_EXCEPTIONS e = false ->
  (tmdb env (length (requests st)) (SearchMovie api_key title) = Fails e ->
   search_tmdb env title api_key st
   = (Raise e, sent (SearchMovie api_key title) st))
  /\ (tmdb env (length (requests st)) (MovieDetails api_key movie_id)
      = Fails e ->
      get_movie_details env movie_id api_key st
      = (Raise e, sent (MovieDetails api_key movie_id) st)).
Proof.
  intros Hl. split; intros H.
  - now apply RetryFacts.search_unlisted_raises.
  - unfold get_movie_details, with_retry.
    cbn [retry_loop Nat.sub STOP_AFTER_ATTEMPT].
    unfold try_except at 1, http_get at 1. now rewrite H, Hl.
Qed.

Lemma unlisted_exception_is_not_retried_witness :
  let broken := {| exn_class_of := OtherException; exn_status := None;
                   exn_message := "Expecting value: line 1 column 1" |} in
  let env := Sample.world 0 (fun _ _ => Fails broken) Missing in
  search_tmdb env "Juno" "key" (initial_state Missing)
  = (Raise broken, sent (SearchMovie "key" "Juno") (initial_state Missing)).
Proof.
  intros broken env.
  apply (proj1 (unlisted_exception_is_not_retried env "Juno" "key" None
                  (initial_state Missing) broken eq_refl)).
  reflexivity.
Defined.

(** X13: a candidate is skipped for its year exactly when a year context
    is given and the text of its release date before the first hyphen
    reads, by [int], as a year below it.  So a context of 0 or less, an
    empty release date and a release date that [int] rejects never skip
    a candidate. *)
Theorem year_test_characterised
    (year_context : option Z) (release_date : string) (release_year y : Z) :
  released_earlier year_context release_date = Some (release_year, y)
  <-> year_context = Some y
      /\ PyInt.release_year release_date = Some release_year
      /\ (release_year < y)%Z.
Proof.
  split.
  - unfold released_earlier, year_given.
    destruct year_context as [y0|]; [|discriminate].
    destruct (Z.eqb_spec y0 0); [discriminate|].
    destruct (is_empty release_date); [discriminate|].
    destruct (PyInt.release_year release_date) as [ry|]; [|discriminate].
    destruct (Z.ltb_spec ry y0); [|discriminate].
    intros [= <- <-]. now repeat split.
  - intros (-> & Hy & Hlt). now apply YearFacts.released_earlier_when.
Qed.

(** X14: with an API key, a title listed (after normalisation) in
    [force_skip] and not in [force_analyze] makes [main] print the
    force-skip line and exit with code 1, without reading the cache or
    asking TMDB. *)
Theorem force_skip_exits_with_one
    (env : Env) (fromisoformat : string -> option datetime)
    (isoformat : Z -> string)
    (args : Args) (api_key : string) (overrides : Overrides) (st : State) :
  api_key_env env = Some api_key ->
  api_key <> "" ->
  overrides_file env = Json overrides ->
  (forall t, In t (force_analyze overrides) ->
             normalize_title t <> normalize_title (arg_title args)) ->
  (exists t, In t (force_skip overrides)
             /\ normalize_title t = normalize_title (arg_title args)) ->
  main env fromisoformat isoformat args st
  = (Return 1%Z, snd (print (PrintForceSkip (arg_title args)) st)).
Proof.
  intros Hk Hne Ho Ha Hs. unfold main. rewrite Hk.
  apply MatchFacts.is_empty_false in Hne. rewrite Hne.
  unfold load_overrides. rewrite Ho.
  apply MainFacts.listed_In in Hs.
  unfold bind at 1. cbn [ret]. rewrite Hs.
  destruct (listed (normalize_title (arg_title args))
                   (force_analyze overrides)) eqn:E; [|reflexivity].
  apply MainFacts.listed_In in E as (t & Hin & Heq).
  now destruct (Ha t Hin).
Qed.

Lemma force_skip_exits_with_one_witness :
  let skip := {| force_analyze := ["Hanna"]; force_skip := ["The Juno"] |} in
  let env := Sample.world 0 Sample.empty_tmdb (Json skip) in
  let args := {| arg_title := "JUNO (2007)"; arg_year_context := None |} in
  main env Sample.fromisoformat Sample.isoformat args (initial_state Missing)
  = (Return 1%Z,
     snd (print (PrintForceSkip "JUNO (2007)") (initial_state Missing))).
Proof.
  intros skip env args.
  apply (force_skip_exits_with_one env Sample.fromisoformat Sample.isoformat
           args "key" skip (initial_state Missing)
           eq_refl ltac:(discriminate) eq_refl).
  - intros t [<-|[]]. discriminate.
  - exists "The Juno". split; [now left|reflexivity].
Defined.

(** X15: without [TMDB_API_KEY] (unset or empty) [main] exits with code 2
    at once: the override lists are not read, so even a title listed in
    [force_skip] or [force_analyze] gets code 2. *)
Theorem missing_api_key_exits_with_two
    (env : Env) (fromisoformat : string -> option datetime)
    (isoformat : Z -> string)
    (args : Args) (st : State) :
  api_key_env env = None \/ api_key_env env = Some "" ->
  main env fromisoformat isoformat args st
  = (Return 2%Z, snd (print PrintMissingKey st)).
Proof. intros [H|H]; unfold main; now rewrite H. Qed.

Lemma missing_api_key_exits_with_two_witness :
  let skip := {| force_analyze := []; force_skip := ["Juno"] |} in
  let env := {| clock := fun _ => 0%Z; tmdb := Sample.empty_tmdb;
                cache_dir_error := None; cache_write := Written;
                overrides_file := Json skip;
                api_key_env := Some "" |} in
  main env Sample.fromisoformat Sample.isoformat
       {| arg_title := "Juno"; arg_year_context := None |}
       (initial_state Missing)
  = (Return 2%Z, snd (print PrintMissingKey (initial_state Missing))).
Proof.
  intros skip env.
  apply missing_api_key_exits_with_two. now right.
Defined.
